(** * Vinyl pool cost estimator (src/app.py): a shallow embedding

    Text is [list ascii], with Python's Unicode whitespace and word classes
    restricted to the ASCII range.  Streamlit output ([st.error],
    [st.warning], [st.success]) and Python exceptions are threaded through a
    small error-and-messages monad.  The handler is given twice: with
    currency amounts, dimensions and provider values as exact rationals [Q],
    and in module [Binary64] with Python's [int] and [float] as CPython has
    them, including rounding and the exceptions of the conversions.  The
    e-mail function takes the file system, the mail server and the header
    parsing as parameters. *)

From Stdlib Require Import QArith Qround ZArith List Ascii String Bool Lia
  Lqa PrimFloat SpecFloat FloatOps.
Import ListNotations.

Open Scope Q_scope.

Definition text := list ascii.

Definition tx (s : string) : text := list_ascii_of_string s.

(** ** Text helpers *)

(** Python's [str.isspace] on ASCII: \t \n \v \f \r, \x1c-\x1f and space. *)
Definition is_space (c : ascii) : bool :=
  let n := nat_of_ascii c in
  ((9 <=? n) && (n <=? 13))%nat || ((28 <=? n) && (n <=? 32))%nat.

(** Regex [\w] on ASCII: letters, digits and underscore. *)
Definition is_word (c : ascii) : bool :=
  let n := nat_of_ascii c in
  ((48 <=? n) && (n <=? 57))%nat || ((65 <=? n) && (n <=? 90))%nat
  || ((97 <=? n) && (n <=? 122))%nat || (n =? 95)%nat.

Definition ascii_lower (c : ascii) : ascii :=
  let n := nat_of_ascii c in
  if ((65 <=? n) && (n <=? 90))%nat then ascii_of_nat (n + 32) else c.

Definition lower (s : text) : text := map ascii_lower s.

Fixpoint lstrip (s : text) : text :=
  match s with
  | c :: s' => if is_space c then lstrip s' else s
  | [] => []
  end.

(** [str.strip()] *)
Definition strip (s : text) : text := rev (lstrip (rev (lstrip s))).

(** [not s.strip()] *)
Definition is_blank (s : text) : bool :=
  match strip s with [] => true | _ => false end.

Fixpoint text_eqb (a b : text) : bool :=
  match a, b with
  | [], [] => true
  | x :: a', y :: b' => Ascii.eqb x y && text_eqb a' b'
  | _, _ => false
  end.

Fixpoint is_prefix (k s : text) : bool :=
  match k, s with
  | [], _ => true
  | x :: k', y :: s' => Ascii.eqb x y && is_prefix k' s'
  | _ :: _, [] => false
  end.

(** [key in city] *)
Fixpoint contains (k s : text) : bool :=
  is_prefix k s || match s with [] => false | _ :: s' => contains k s' end.

(** ** Constants (lines 15-64) *)

Inductive size_category := Small | Medium | Large.
Inductive difficulty := Easy | Moderate | Difficult.

Record base_costs := { Excavation : Q; PoolWork : Q; Liner : Q }.

Definition mk_costs (e p l : Q) : base_costs :=
  {| Excavation := e; PoolWork := p; Liner := l |}.

Definition COST_TABLE (c : size_category) (d : difficulty) : base_costs :=
  match c, d with
  | Small, Easy => mk_costs 3791 5391 1178
  | Small, Moderate => mk_costs 4140 6860 1178
  | Small, Difficult => mk_costs 4488 8269 1535
  | Medium, Easy => mk_costs 3132 5391 1608
  | Medium, Moderate => mk_costs 4140 7890 1981
  | Medium, Difficult => mk_costs 4894 10842 2354
  | Large, Easy => mk_costs 7016 7935 1567
  | Large, Moderate => mk_costs 7016 7935 1567
  | Large, Difficult => mk_costs 7016 7935 1567
  end.

Definition INSTALL_COST (c : size_category) : Q :=
  match c with Small => 281.69 | Medium => 388.49 | Large => 495.29 end.

(** A dict in insertion order. *)
Definition PERMIT_COSTS : list (text * Q) :=
  [(tx "burlington", 1000); (tx "oakville", 1000);
   (tx "mississauga", 500); (tx "toronto", 500); (tx "brampton", 500);
   (tx "etobicoke", 500); (tx "hamilton", 500)].

Record fixed_costs := {
  Plumbing : Q; Filter : Q; SaltSystem : Q; Transformer : Q;
  DrainKit : Q; WinterCoverLabour : Q }.

Definition FIXED_COSTS : fixed_costs := {|
  Plumbing := 1800.00;
  Filter := 1192.50;
  SaltSystem := 1348.35 + 100.00;
  Transformer := 140.33;
  DrainKit := 362.80;
  WinterCoverLabour := 300.00 |}.

Definition PUMP_OPTIONS : list (text * Q) :=
  [(tx "Jandy VSFHP165AUT, VS FloPro Variable Speed Pump W/O JEP-R", 1217.14);
   (tx "Jandy VS FloPro 1.65 HP Variable-Speed Pump, 115/230 VAC, w/SpeedSet Control", 1490.69);
   (tx "Jandy VS FloPro 1.85 HP Variable-Speed Pump 115/230 VAC, 2 AUX Relays", 1380.21);
   (tx "Jandy VS FloPro 2.7 HP Variable-Speed Pump, 115/230 Vac, 2 Aux Relays, w/o", 1870.46)].

Definition HEATER_OPTIONS : list (text * Q) :=
  [(tx "Jandy JXIQ Pool Heater, 200, Natural Gas, Copper Hx, Versaflo, Poly Header", 3067.73);
   (tx "Jandy JXI Pool Heater 200 Propane/ Natural", 2718.61);
   (tx "Jandy JXIQ Pool Heater, 260, Natural Gas, Copper Hx, Versaflo, Poly Header", 3294.29);
   (tx "Jandy JXI Pool Heater 260 Propane/ Natural", 2936.09);
   (tx "Jandy JXIQ Pool Heater, 400, Natural Gas, Copper Hx, Versaflo, Poly Header", 3549.77);
   (tx "Jandy JXI Pool Heater 400 Natural/ Propane", 3212.75)].

Fixpoint assoc (k : text) (d : list (text * Q)) : option Q :=
  match d with
  | [] => None
  | (k', v) :: d' => if text_eqb k k' then Some v else assoc k d'
  end.

(** ** [get_city] (lines 72-74)

    [re.search(r'([\w\s\-]+?),\s*(ON|Ontario)', address, re.IGNORECASE)]:
    a backtracking matcher, tried at each start position from the left. *)

Definition in_group_class (c : ascii) : bool :=
  is_word c || is_space c || Ascii.eqb c "-"%char.

(** Case-insensitive comparison of a literal with a prefix of the input. *)
Fixpoint prefix_ci (k s : text) : bool :=
  match k, s with
  | [], _ => true
  | x :: k', y :: s' => Ascii.eqb (ascii_lower x) (ascii_lower y) && prefix_ci k' s'
  | _ :: _, [] => false
  end.

(** [(ON|Ontario)] *)
Definition match_alt (s : text) : bool :=
  prefix_ci (tx "ON") s || prefix_ci (tx "Ontario") s.

(** [\s*(ON|Ontario)]: greedy [\s*] with backtracking. *)
Fixpoint match_tail (s : text) : bool :=
  match s with
  | c :: s' => (is_space c && match_tail s') || match_alt s
  | [] => match_alt s
  end.

(** [,\s*(ON|Ontario)] after the group. *)
Definition after_group (s : text) : bool :=
  match s with
  | c :: s' => Ascii.eqb c ","%char && match_tail s'
  | [] => false
  end.

(** Lazy [([\w\s\-]+?)]: the group grows one character at a time until
    the rest of the pattern matches; [acc] is the group so far. *)
Fixpoint lazy_group (s acc : text) : option text :=
  match s with
  | c :: s' =>
      if in_group_class c then
        let g := acc ++ [c] in
        if after_group s' then Some g else lazy_group s' g
      else None
  | [] => None
  end.

(** [re.search]: group 1 of the leftmost match. *)
Fixpoint search (s : text) : option text :=
  match lazy_group s [] with
  | Some g => Some g
  | None => match s with [] => None | _ :: s' => search s' end
  end.

Definition get_city (address : text) : text :=
  match search address with
  | Some g => lower (strip g)
  | None => []
  end.

(** ** [get_permit_cost] (lines 76-81) *)

Fixpoint first_permit (city : text) (d : list (text * Q)) : Q :=
  match d with
  | [] => 0
  | (key, fee) :: d' => if contains key city then fee else first_permit city d'
  end.

Definition get_permit_cost (address : text) : Q :=
  first_permit (get_city address) PERMIT_COSTS.

(** ** [calculate_difficulty] (lines 83-92) and the size category (line 188) *)

Definition Qltb (x y : Q) : bool := negb (Qle_bool y x).

Definition calculate_difficulty (distance_ft access_in : Q) : difficulty :=
  let dist_factor :=
    if Qle_bool distance_ft 70 then 1%Z
    else if Qle_bool distance_ft 120 then 2%Z else 3%Z in
  let acc_factor := if Qltb access_in 70 then 2%Z else 1%Z in
  let score := (dist_factor * acc_factor)%Z in
  if (score =? 1)%Z then Easy
  else if (score =? 2)%Z then Moderate
  else Difficult.

Definition category_of (linear_feet : Q) : size_category :=
  if Qle_bool linear_feet 76 then Small
  else if Qle_bool linear_feet 104 then Medium
  else Large.

(** ** Effects: Python exceptions and Streamlit messages *)

Inductive exn :=
| KeyError (key : text)
| IndexError
| ApiError (msg : text)
| OverflowError (msg : text)
| ValueError (msg : text).

(** [f"{e}"] *)
Definition exn_text (e : exn) : text :=
  match e with
  | KeyError k => tx "'" ++ k ++ tx "'"
  | IndexError => tx "list index out of range"
  | ApiError m => m
  | OverflowError m => m
  | ValueError m => m
  end.

Inductive message :=
| Warning (m : text)
| ErrorMsg (m : text)
| SuccessMsg (m : text).

(** A computation runs on the messages emitted so far and ends with a raised
    exception or a value. *)
Definition M (A : Type) : Type := list message -> (exn + A) * list message.

Definition ret {A} (a : A) : M A := fun ms => (inr a, ms).
Definition raise {A} (e : exn) : M A := fun ms => (inl e, ms).
Definition bind {A B} (m : M A) (k : A -> M B) : M B :=
  fun ms => match m ms with
            | (inl e, ms') => (inl e, ms')
            | (inr a, ms') => k a ms'
            end.
Definition emit (m : message) : M unit := fun ms => (inr tt, ms ++ [m]).

(** [try: ... except Exception as e: ...] *)
Definition try_except {A} (m : M A) (h : exn -> M A) : M A :=
  fun ms => match m ms with
            | (inl e, ms') => h e ms'
            | (inr a, ms') => (inr a, ms')
            end.

Definition run {A} (m : M A) : (exn + A) * list message := m [].

Notation "x <- m ;; k" := (bind m (fun x => k))
  (at level 61, m at next level, right associativity).
Notation "m ;;; k" := (bind m (fun _ => k))
  (at level 61, right associativity).

(** [d[k]] on a dict. *)
Definition dict_get (d : list (text * Q)) (k : text) : M Q :=
  match assoc k d with Some v => ret v | None => raise (KeyError k) end.

(** ** [get_drive_km_and_time] (lines 94-110)

    The distance-matrix response: rows of elements, each with a status and
    the [distance]/[duration] entries (absent ones raise [KeyError]).
    [st.cache_data] memoization is not modelled. *)

Record element := {
  el_status : text;
  el_distance : option Q;   (* element['distance']['value'], metres *)
  el_duration : option Q }. (* element['duration']['value'], seconds *)

Inductive api_response :=
| ApiRaises (msg : text)
| ApiReturns (rows : list (list element)).

(** [gmaps.distance_matrix(origins=..., destinations=...)] *)
Definition provider := text -> text -> api_response.

Definition nth_get {A} (l : list A) (i : nat) : M A :=
  match nth_error l i with Some x => ret x | None => raise IndexError end.

Definition opt_key (k : text) (o : option Q) : M Q :=
  match o with Some v => ret v | None => raise (KeyError k) end.

Definition get_drive_km_and_time (gmaps : provider) (origin destination : text)
  : M (Q * Q) :=
  try_except
    (if is_blank destination then ret (0, 0)
     else
       result <- (match gmaps origin destination with
                  | ApiRaises m => raise (ApiError m)
                  | ApiReturns rows => ret rows
                  end) ;;
       row <- nth_get result 0 ;;
       element <- nth_get row 0 ;;
       if negb (text_eqb (el_status element) (tx "OK")) then
         emit (Warning (tx "Google Distance Matrix API returned status: "
                          ++ el_status element)) ;;;
         ret (0, 0)
       else
         d <- opt_key (tx "distance") (el_distance element) ;;
         km <- ret (d / 1000) ;;
         s <- opt_key (tx "duration") (el_duration element) ;;
         hrs <- ret (s / 3600) ;;
         ret (km, hrs))
    (fun e => emit (Warning (tx "Error calling Google Maps API: " ++ exn_text e)) ;;;
              ret (0, 0)).

(** ** The submit handler (lines 182-270)

    The form values as the widgets deliver them; [lights] is an [int]. *)

Record form_input := {
  address : text;
  width : Q;
  length : Q;
  dist_to_pool : Q;
  access_in : Q;
  steps : text;
  tracking : text;
  lights : Z;
  selected_pump : text;
  selected_heater : text }.

(** The widgets' domains (lines 168-178): [min_value] bounds, radio options
    and selectbox keys. *)
Definition in_keys (k : text) (d : list (text * Q)) : bool :=
  match assoc k d with Some _ => true | None => false end.

Definition widget_domain (f : form_input) : bool :=
  Qle_bool 1 (width f) && Qle_bool 1 (length f)
  && Qle_bool 0 (dist_to_pool f) && Qle_bool 0 (access_in f)
  && (text_eqb (steps f) (tx "Yes") || text_eqb (steps f) (tx "No"))
  && (text_eqb (tracking f) (tx "Side Mount Single Track")
      || text_eqb (tracking f) (tx "Bullnose Single Track"))
  && (0 <=? lights f)%Z
  && in_keys (selected_pump f) PUMP_OPTIONS
  && in_keys (selected_heater f) HEATER_OPTIONS.

(** The summary record; display formatting ([:.0f], [.title()]) is
    not modelled. *)
Record summary := {
  s_address : text; s_width : Q; s_length : Q;
  s_linear_feet : Q; s_sqft : Q;
  s_category : size_category; s_difficulty : difficulty; s_city : text;
  s_steps : text; s_tracking : text; s_lights : Z;
  s_pump : text; s_heater : text;
  s_drive_km : Q; s_drive_hr : Q }.

Record estimate := {
  est_summary : summary;
  est_breakdown : list (text * Q) }.

(** Python's [sum]: a left fold from [0]. *)
Definition py_sum (l : list Q) : Q := fold_left Qplus l 0.

Definition DEPOT : text := tx "5491 Appleby Line, Burlington, ON".

(** The line items of lines 186-209, named as in the source. *)
Record line_items := {
  linear_feet : Q; sqft : Q;
  category : size_category; difficulty_of : difficulty;
  permit_cost : Q; drive_cost : Q;
  costs : base_costs; base_liner : Q; extra : Q;
  tracking_cost : Q; hpb : Q; steel : Q; concrete : Q; soft : Q;
  winter_area : Q; lights_total : Q; transformer : Q;
  pump_cost : Q; heater_cost : Q }.

Definition compute_items (f : form_input) (drive_hr pump heater : Q)
  : line_items :=
  let linear_feet := 2 * (width f + length f) in
  let sqft := width f * length f in
  let category := category_of linear_feet in
  let rounded := (Qceiling (linear_feet / 10) * 10)%Z in
  let track_rate := if text_eqb (tracking f) (tx "Side Mount Single Track")
                    then 4.27 else 8.39 in
  {| linear_feet := linear_feet;
     sqft := sqft;
     category := category;
     difficulty_of := calculate_difficulty (dist_to_pool f) (access_in f);
     permit_cost := get_permit_cost (address f);
     drive_cost := drive_hr * 35 * 26 * 4;
     costs := COST_TABLE category
                (calculate_difficulty (dist_to_pool f) (access_in f));
     base_liner := INSTALL_COST category;
     extra := if text_eqb (steps f) (tx "Yes") then linear_feet * 22.12
              else linear_feet * 22.12 + 300;
     tracking_cost := inject_Z rounded * track_rate;
     hpb := linear_feet * 7.25;
     steel := linear_feet * 50;
     concrete := sqft * 5.25;
     soft := sqft * 0.50;
     winter_area := sqft * 3.50;
     lights_total := inject_Z (lights f) * 366.65;
     transformer := if (0 <? lights f)%Z then Transformer FIXED_COSTS else 0;
     pump_cost := pump;
     heater_cost := heater |}.

(** [total = sum([...])] (lines 211-222). *)
Definition total_of (i : line_items) : Q :=
  py_sum [
    Excavation (costs i); PoolWork (costs i); Liner (costs i);
    base_liner i + extra i; hpb i; steel i; tracking_cost i;
    concrete i; soft i;
    lights_total i; transformer i;
    DrainKit FIXED_COSTS; Plumbing FIXED_COSTS;
    heater_cost i;
    Filter FIXED_COSTS; pump_cost i;
    SaltSystem FIXED_COSTS;
    WinterCoverLabour FIXED_COSTS; winter_area i;
    permit_cost i; drive_cost i].

(** [breakdown] (lines 241-264). *)
Definition breakdown_of (i : line_items) : list (text * Q) := [
  (tx "Excavation", Excavation (costs i));
  (tx "Pool Work", PoolWork (costs i));
  (tx "Liner Labor", Liner (costs i));
  (tx "Liner Material + Steps", base_liner i + extra i);
  (tx "HPB", hpb i);
  (tx "Steel", steel i);
  (tx "Tracking", tracking_cost i);
  (tx "Concrete", concrete i);
  (tx "Softbottom", soft i);
  (tx "Lights", lights_total i);
  (tx "Transformer", transformer i);
  (tx "Drain Kit", DrainKit FIXED_COSTS);
  (tx "Plumbing", Plumbing FIXED_COSTS);
  (tx "Heater", heater_cost i);
  (tx "Filter", Filter FIXED_COSTS);
  (tx "Pump", pump_cost i);
  (tx "Salt System (+salt)", SaltSystem FIXED_COSTS);
  (tx "Winter Cover Area", winter_area i);
  (tx "Winter Cover Labour", WinterCoverLabour FIXED_COSTS);
  (tx "Permit", permit_cost i);
  (tx "Drive Time Labour", drive_cost i);
  (tx "Total", total_of i)].

(** [summary] (lines 224-239). *)
Definition summary_of (f : form_input) (i : line_items) (drive_km drive_hr : Q)
  : summary := {|
  s_address := address f;
  s_width := width f; s_length := length f;
  s_linear_feet := linear_feet i; s_sqft := sqft i;
  s_category := category i; s_difficulty := difficulty_of i;
  s_city := get_city (address f);
  s_steps := steps f; s_tracking := tracking f; s_lights := lights f;
  s_pump := selected_pump f; s_heater := selected_heater f;
  s_drive_km := drive_km; s_drive_hr := drive_hr |}.

Definition assemble (f : form_input) (drive_km drive_hr : Q)
  (pump heater : Q) : estimate :=
  let i := compute_items f drive_hr pump heater in
  {| est_summary := summary_of f i drive_km drive_hr;
     est_breakdown := breakdown_of i |}.

Definition VALIDATION_MSG : text :=
  tx "Please enter a valid pool address before generating estimate.".

(** [if submit:] ...  [None] is the validation-error branch; PDF generation
    and the e-mail form that follow the breakdown are not modelled. *)
Definition submit (gmaps : provider) (f : form_input) : M (option estimate) :=
  if is_blank (address f) then
    emit (ErrorMsg VALIDATION_MSG) ;;;
    ret None
  else
    dk <- get_drive_km_and_time gmaps DEPOT (address f) ;;
    pump <- dict_get PUMP_OPTIONS (selected_pump f) ;;
    heater <- dict_get HEATER_OPTIONS (selected_heater f) ;;
    emit (SuccessMsg (tx "Estimate Ready")) ;;;
    ret (Some (assemble f (fst dk) (snd dk) pump heater)).

(** The breakdown's [Total] entry. *)
Definition breakdown_total (e : estimate) : option Q := assoc (tx "Total") (est_breakdown e).

(** [lights] changed, every other input kept. *)
Definition with_lights (f : form_input) (n : Z) : form_input :=
  {| address := address f; width := width f; length := length f;
     dist_to_pool := dist_to_pool f; access_in := access_in f;
     steps := steps f; tracking := tracking f; lights := n;
     selected_pump := selected_pump f; selected_heater := selected_heater f |}.

(** The Total of a produced estimate, [None] when no estimate is produced. *)
Definition submit_total (gmaps : provider) (f : form_input) : option Q :=
  match run (submit gmaps f) with
  | (inr (Some e), _) => breakdown_total e
  | _ => None
  end.

Definition opt_rel (R : Q -> Q -> Prop) (a b : option Q) : Prop :=
  match a, b with
  | Some x, Some y => R x y
  | None, None => True
  | _, _ => False
  end.

(** The provider reports non-negative distances and durations. *)
Definition opt_nonneg (o : option Q) : Prop :=
  match o with Some v => 0 <= v | None => True end.

Definition provider_nonneg (g : provider) : Prop :=
  forall o d rows, g o d = ApiReturns rows ->
    Forall (Forall (fun el => opt_nonneg (el_distance el)
                              /\ opt_nonneg (el_duration el))) rows.

(** A provider answering every query with one element. *)
Definition provider_ok (meters seconds : Q) : provider :=
  fun _ _ => ApiReturns [[{| el_status := tx "OK";
                              el_distance := Some meters;
                              el_duration := Some seconds |}]].

Definition first_pump : text :=
  tx "Jandy VSFHP165AUT, VS FloPro Variable Speed Pump W/O JEP-R".
Definition first_heater : text :=
  tx "Jandy JXIQ Pool Heater, 200, Natural Gas, Copper Hx, Versaflo, Poly Header".

(** The form's default values with a Burlington address. *)
Definition sample_form : form_input := {|
  address := tx "12 Elm St, Burlington, ON";
  width := 16; length := 32; dist_to_pool := 65; access_in := 65;
  steps := tx "Yes"; tracking := tx "Side Mount Single Track"; lights := 0;
  selected_pump := first_pump; selected_heater := first_heater |}.

Definition is_ontario (w : text) : Prop :=
  lower w = lower (tx "ON") \/ lower w = lower (tx "Ontario").

(** [s = p ++ loc ++ "," ++ t] with [loc] a non-empty run of the group's
    class and [t] matching [\s*(ON|Ontario)]. *)
Definition group_at (s p loc t_ : text) : Prop :=
  s = p ++ loc ++ ","%char :: t_ /\ loc <> [] /\
  Forall (fun c => in_group_class c = true) loc /\ match_tail t_ = true.

(** Specification side (spec section 4.1): [address] contains
    "<locality>, ON" or "<locality>, Ontario" up to case: a non-empty run
    [loc] of word characters, spaces and hyphens, a comma, spaces [ws], then
    an ON/Ontario word [w]. *)
Definition city_pattern_at (a p loc ws w r : text) : Prop :=
  a = p ++ loc ++ [","%char] ++ ws ++ w ++ r /\ loc <> [] /\
  Forall (fun c => in_group_class c = true) loc /\
  Forall (fun c => is_space c = true) ws /\ is_ontario w.

(** [key in city] as a Prop. *)
Definition substring (k s : text) : Prop := exists x y, s = x ++ k ++ y.

(** ** [sanitize_filename] (lines 68-70) and the PDF file name (line 272) *)

(** [str.split()]: maximal runs of non-whitespace; [cur] is the current
    token, reversed. *)
Fixpoint split_go (s cur : text) : list text :=
  match s with
  | [] => match cur with [] => [] | _ => [rev cur] end
  | c :: s' =>
      if is_space c then
        match cur with
        | [] => split_go s' []
        | _ => rev cur :: split_go s' []
        end
      else split_go s' (c :: cur)
  end.

Definition split_ws (s : text) : list text := split_go s [].

(** [sep.join(l)] *)
Fixpoint join (sep : text) (l : list text) : text :=
  match l with
  | [] => []
  | [x] => x
  | x :: l' => x ++ sep ++ join sep l'
  end.

Definition sanitize_filename (address : text) : text :=
  let clean := filter (fun c => is_word c || is_space c) address in
  join (tx "_") (split_ws (strip clean)).

Definition pdf_file_path (address : text) : text :=
  sanitize_filename address ++ tx "_Estimate.pdf".

(** ** [send_email_with_attachment] (lines 135-156) *)

(** [os.path.basename]: the part after the last slash. *)
Fixpoint basename_go (p acc : text) : text :=
  match p with
  | [] => rev acc
  | c :: p' => if Ascii.eqb c "/"%char then basename_go p' [] else basename_go p' (c :: acc)
  end.

Definition basename (p : text) : text := basename_go p [].

Record email_message := {
  m_from : text; m_to : text; m_subject : text; m_body : text;
  m_attachment : list Byte.byte; m_filename : text }.

(** The SMTP conversation of lines 150-153; the closing QUIT of the
    [with] block is not modelled. *)
Inductive smtp_op :=
| SmtpConnect (host : text) (port : Z)
| SmtpStarttls
| SmtpLogin (user password : text)
| SmtpSend (msg : email_message).

(** The mail server: [Some err] when the operation raises. *)
Definition smtp_server := smtp_op -> option text.

(** The file system: the contents of a path, [None] when [open] fails. *)
Definition file_system := text -> option (list Byte.byte).

(** Runs operations until the first one that raises; returns its error and
    the operations attempted. *)
Fixpoint run_smtp (server : smtp_server) (ops : list smtp_op)
  : option text * list smtp_op :=
  match ops with
  | [] => (None, [])
  | o :: os =>
      match server o with
      | Some e => (Some e, [o])
      | None => let '(r, l) := run_smtp server os in (r, o :: l)
      end
  end.

Definition smtp_ops (sender_email sender_password : text) (msg : email_message)
  : list smtp_op :=
  [SmtpConnect (tx "smtp.gmail.com") 587; SmtpStarttls;
   SmtpLogin sender_email sender_password; SmtpSend msg].

(** The header assignments [msg[name] = value] of lines 137-139:
    [Some err] when [EmailMessage]'s default policy raises on the value.
    It raises [ValueError] for a value that [str.splitlines] cuts into more
    than one line, and the address parser used for [From] and [To] raises
    on many malformed addresses ([ValueError], [IndexError],
    [AttributeError], ...), so the behaviour is a parameter, like the file
    system and the server. *)
Definition header_policy := text -> text -> option text.

(** The exceptions that escape [send_email_with_attachment], both raised
    outside its [try]: a header assignment (lines 137-139, with the header's
    name) and [open] (line 142). *)
Inductive send_failure :=
| HeaderFailed (name err : text)
| OpenFailed (path : text).

(** [inl err]: the function raised [err]; [inr r]: the returned pair.  The
    second component lists the SMTP operations attempted. *)
Definition send_email_with_attachment (hp : header_policy) (fs : file_system)
  (server : smtp_server)
  (sender_email sender_password recipient_email subject body attachment_path : text)
  : (send_failure + (bool * text)) * list smtp_op :=
  match hp (tx "From") sender_email with
  | Some e => (inl (HeaderFailed (tx "From") e), [])
  | None =>
  match hp (tx "To") recipient_email with
  | Some e => (inl (HeaderFailed (tx "To") e), [])
  | None =>
  match hp (tx "Subject") subject with
  | Some e => (inl (HeaderFailed (tx "Subject") e), [])
  | None =>
  match fs attachment_path with
  | None => (inl (OpenFailed attachment_path), [])
  | Some file_data =>
      let msg := {| m_from := sender_email; m_to := recipient_email;
                    m_subject := subject; m_body := body;
                    m_attachment := file_data;
                    m_filename := basename attachment_path |} in
      match run_smtp server (smtp_ops sender_email sender_password msg) with
      | (None, log) => (inr (true, tx "Email sent successfully."), log)
      | (Some e, log) => (inr (false, tx "Failed to send email: " ++ e), log)
      end
  end end end end.

(** [if send_email:] ... (lines 285-301): the exception that escaped (if
    any), the messages shown and the SMTP operations attempted. *)
Definition EMAIL_FIELDS_MSG : text :=
  tx "Please enter recipient email, sender email and password.".

Definition email_branch (hp : header_policy) (fs : file_system) (server : smtp_server)
  (recipient_email sender_email sender_password address file_path : text)
  : option send_failure * list message * list smtp_op :=
  if (match recipient_email with [] => true | _ => false end)
     || (match sender_email with [] => true | _ => false end)
     || (match sender_password with [] => true | _ => false end)
  then (None, [ErrorMsg EMAIL_FIELDS_MSG], [])
  else
    match send_email_with_attachment hp fs server sender_email sender_password
            recipient_email (tx "Vinyl Pool Cost Estimate")
            (tx "Please find attached the vinyl pool cost estimate for "
               ++ address ++ tx ".") file_path with
    | (inl p, log) => (Some p, [], log)
    | (inr (true, m), log) => (None, [SuccessMsg m], log)
    | (inr (false, m), log) => (None, [ErrorMsg m], log)
    end.

(** ** Single-input variants of a form *)

Definition with_dist (f : form_input) (d : Q) : form_input :=
  {| address := address f; width := width f; length := length f;
     dist_to_pool := d; access_in := access_in f;
     steps := steps f; tracking := tracking f; lights := lights f;
     selected_pump := selected_pump f; selected_heater := selected_heater f |}.

Definition with_access (f : form_input) (a : Q) : form_input :=
  {| address := address f; width := width f; length := length f;
     dist_to_pool := dist_to_pool f; access_in := a;
     steps := steps f; tracking := tracking f; lights := lights f;
     selected_pump := selected_pump f; selected_heater := selected_heater f |}.

Definition with_steps (f : form_input) (s : text) : form_input :=
  {| address := address f; width := width f; length := length f;
     dist_to_pool := dist_to_pool f; access_in := access_in f;
     steps := s; tracking := tracking f; lights := lights f;
     selected_pump := selected_pump f; selected_heater := selected_heater f |}.

Definition with_length (f : form_input) (l : Q) : form_input :=
  {| address := address f; width := width f; length := l;
     dist_to_pool := dist_to_pool f; access_in := access_in f;
     steps := steps f; tracking := tracking f; lights := lights f;
     selected_pump := selected_pump f; selected_heater := selected_heater f |}.

Definition difficulty_rank (d : difficulty) : nat :=
  match d with Easy => 0 | Moderate => 1 | Difficult => 2 end%nat.

(** ** The handler in binary64 arithmetic

    The same code with Python's numbers as CPython has them: an [int] is an
    unbounded integer and a [float] an IEEE-754 binary64 value (Rocq's
    primitive floats, rounding to nearest, ties to even).  Mixed [int] and
    [float] arithmetic first converts the [int] to the nearest [float] and
    raises [OverflowError] when that is out of range; float arithmetic
    itself never raises and overflows to infinity.  [sum] is CPython's up to
    version 3.11: [+] from left to right, starting from the [int] 0 (later
    versions compensate float sums; that variant is not modelled).  The
    definitions above the module give the same code in exact rational
    arithmetic. *)

Module Binary64.

Local Open Scope float_scope.
Local Set Warnings "-inexact-float".

Inductive pynum := PInt (z : Z) | PFloat (x : float).

(** The nearest float to an integer. *)
Definition float_of_Z (z : Z) : float :=
  SF2Prim (binary_normalize prec emax z 0 false).

(** [float(z)]: [OverflowError] from the midpoint between the largest float
    and [2^1024] on, where rounding would give an infinity. *)
Definition Z_to_float (z : Z) : M float :=
  if (Z.abs z <? 2 ^ 1024 - 2 ^ 970)%Z then ret (float_of_Z z)
  else raise (OverflowError (tx "int too large to convert to float")).

Definition to_float (a : pynum) : M float :=
  match a with PInt z => Z_to_float z | PFloat x => ret x end.

(** [a + b] and [a * b] *)
Definition py_add (a b : pynum) : M pynum :=
  match a, b with
  | PInt x, PInt y => ret (PInt (x + y)%Z)
  | _, _ => x <- to_float a ;; y <- to_float b ;; ret (PFloat (x + y))
  end.

Definition py_mul (a b : pynum) : M pynum :=
  match a, b with
  | PInt x, PInt y => ret (PInt (x * y)%Z)
  | _, _ => x <- to_float a ;; y <- to_float b ;; ret (PFloat (x * y))
  end.

(** [sum(l)]: a left fold of [+] from [0]. *)
Fixpoint sum_from (acc : pynum) (l : list pynum) : M pynum :=
  match l with
  | [] => ret acc
  | x :: l' => a <- py_add acc x ;; sum_from a l'
  end.

Definition py_sum (l : list pynum) : M pynum := sum_from (PInt 0) l.

(** [math.ceil(x)] for a float, computed exactly on the binary value. *)
Definition py_ceil (x : float) : M Z :=
  match Prim2SF x with
  | S754_zero _ => ret 0%Z
  | S754_infinity _ =>
      raise (OverflowError (tx "cannot convert float infinity to integer"))
  | S754_nan => raise (ValueError (tx "cannot convert float NaN to integer"))
  | S754_finite s m e =>
      if (0 <=? e)%Z then
        ret (if s then (- Z.shiftl (Zpos m) e)%Z else Z.shiftl (Zpos m) e)
      else
        let q := Z.shiftr (Zpos m) (- e) in
        ret (if s then (- q)%Z
             else if (Z.shiftl q (- e) =? Zpos m)%Z then q else (q + 1)%Z)
  end.

(** [a / b] for [int]s, [b > 0]: the correctly rounded quotient. *)
Definition int_truediv (a : Z) (b : positive) : M float :=
  let r := match a with
           | Z0 => S754_zero false
           | Zpos p => SFdiv prec emax (S754_finite false p 0) (S754_finite false b 0)
           | Zneg p => SFdiv prec emax (S754_finite true p 0) (S754_finite false b 0)
           end in
  match r with
  | S754_infinity _ =>
      raise (OverflowError (tx "integer division result too large for a double"))
  | _ => ret (SF2Prim r)
  end.

(** The exact rational value of a finite float. *)
Definition float_value (x : float) : option Q :=
  match Prim2SF x with
  | S754_zero _ => Some 0%Q
  | S754_finite s m e =>
      let v := if (0 <=? e)%Z then inject_Z (Zpos m * 2 ^ e)
               else (Zpos m # Z.to_pos (2 ^ (- e)))%Q in
      Some (if s then (- v)%Q else v)
  | _ => None
  end.

Definition pynum_value (a : pynum) : option Q :=
  match a with PInt z => Some (inject_Z z) | PFloat x => float_value x end.

(** *** Constants (lines 15-64): the [COST_TABLE] and [PERMIT_COSTS]
    values are [int]s, the others [float]s. *)

Record base_costs := { Excavation : Z; PoolWork : Z; Liner : Z }.

Definition mk_costs (e p l : Z) : base_costs :=
  {| Excavation := e; PoolWork := p; Liner := l |}.

Definition COST_TABLE (c : size_category) (d : difficulty) : base_costs :=
  match c, d with
  | Small, Easy => mk_costs 3791 5391 1178
  | Small, Moderate => mk_costs 4140 6860 1178
  | Small, Difficult => mk_costs 4488 8269 1535
  | Medium, Easy => mk_costs 3132 5391 1608
  | Medium, Moderate => mk_costs 4140 7890 1981
  | Medium, Difficult => mk_costs 4894 10842 2354
  | Large, Easy => mk_costs 7016 7935 1567
  | Large, Moderate => mk_costs 7016 7935 1567
  | Large, Difficult => mk_costs 7016 7935 1567
  end%Z.

Definition INSTALL_COST (c : size_category) : float :=
  match c with Small => 281.69 | Medium => 388.49 | Large => 495.29 end.

Definition PERMIT_COSTS : list (text * Z) :=
  [(tx "burlington", 1000); (tx "oakville", 1000);
   (tx "mississauga", 500); (tx "toronto", 500); (tx "brampton", 500);
   (tx "etobicoke", 500); (tx "hamilton", 500)]%Z.

Record fixed_costs := {
  Plumbing : float; Filter : float; SaltSystem : float; Transformer : float;
  DrainKit : float; WinterCoverLabour : float }.

Definition FIXED_COSTS : fixed_costs := {|
  Plumbing := 1800.00;
  Filter := 1192.50;
  SaltSystem := 1348.35 + 100.00;
  Transformer := 140.33;
  DrainKit := 362.80;
  WinterCoverLabour := 300.00 |}.

Definition PUMP_OPTIONS : list (text * float) :=
  [(tx "Jandy VSFHP165AUT, VS FloPro Variable Speed Pump W/O JEP-R", 1217.14);
   (tx "Jandy VS FloPro 1.65 HP Variable-Speed Pump, 115/230 VAC, w/SpeedSet Control", 1490.69);
   (tx "Jandy VS FloPro 1.85 HP Variable-Speed Pump 115/230 VAC, 2 AUX Relays", 1380.21);
   (tx "Jandy VS FloPro 2.7 HP Variable-Speed Pump, 115/230 Vac, 2 Aux Relays, w/o", 1870.46)].

Definition HEATER_OPTIONS : list (text * float) :=
  [(tx "Jandy JXIQ Pool Heater, 200, Natural Gas, Copper Hx, Versaflo, Poly Header", 3067.73);
   (tx "Jandy JXI Pool Heater 200 Propane/ Natural", 2718.61);
   (tx "Jandy JXIQ Pool Heater, 260, Natural Gas, Copper Hx, Versaflo, Poly Header", 3294.29);
   (tx "Jandy JXI Pool Heater 260 Propane/ Natural", 2936.09);
   (tx "Jandy JXIQ Pool Heater, 400, Natural Gas, Copper Hx, Versaflo, Poly Header", 3549.77);
   (tx "Jandy JXI Pool Heater 400 Natural/ Propane", 3212.75)].

Fixpoint assoc {A} (k : text) (d : list (text * A)) : option A :=
  match d with
  | [] => None
  | (k', v) :: d' => if text_eqb k k' then Some v else assoc k d'
  end.

Definition dict_get {A} (d : list (text * A)) (k : text) : M A :=
  match assoc k d with Some v => ret v | None => raise (KeyError k) end.

(** *** [get_permit_cost], [calculate_difficulty] and the category *)

Fixpoint first_permit (city : text) (d : list (text * Z)) : Z :=
  match d with
  | [] => 0%Z
  | (key, fee) :: d' => if contains key city then fee else first_permit city d'
  end.

Definition get_permit_cost (address : text) : Z :=
  first_permit (get_city address) PERMIT_COSTS.

(** Comparisons of a float with an [int] constant, which is exact here. *)
Definition calculate_difficulty (distance_ft access_in : float) : difficulty :=
  let dist_factor :=
    if distance_ft <=? 70 then 1%Z
    else if distance_ft <=? 120 then 2%Z else 3%Z in
  let acc_factor := if access_in <? 70 then 2%Z else 1%Z in
  let score := (dist_factor * acc_factor)%Z in
  if (score =? 1)%Z then Easy
  else if (score =? 2)%Z then Moderate
  else Difficult.

Definition category_of (linear_feet : float) : size_category :=
  if linear_feet <=? 76 then Small
  else if linear_feet <=? 104 then Medium
  else Large.

(** *** [get_drive_km_and_time] (lines 94-110): the response's distance and
    duration values are [int]s. *)

Record element := {
  el_status : text;
  el_distance : option Z;
  el_duration : option Z }.

Inductive api_response :=
| ApiRaises (msg : text)
| ApiReturns (rows : list (list element)).

Definition provider := text -> text -> api_response.

Definition opt_key {A} (k : text) (o : option A) : M A :=
  match o with Some v => ret v | None => raise (KeyError k) end.

Definition get_drive_km_and_time (gmaps : provider) (origin destination : text)
  : M (pynum * pynum) :=
  try_except
    (if is_blank destination then ret (PInt 0, PInt 0)
     else
       result <- (match gmaps origin destination with
                  | ApiRaises m => raise (ApiError m)
                  | ApiReturns rows => ret rows
                  end) ;;
       row <- nth_get result 0 ;;
       element <- nth_get row 0 ;;
       if negb (text_eqb (el_status element) (tx "OK")) then
         emit (Warning (tx "Google Distance Matrix API returned status: "
                          ++ el_status element)) ;;;
         ret (PInt 0, PInt 0)
       else
         d <- opt_key (tx "distance") (el_distance element) ;;
         km <- int_truediv d 1000 ;;
         s <- opt_key (tx "duration") (el_duration element) ;;
         hrs <- int_truediv s 3600 ;;
         ret (PFloat km, PFloat hrs))
    (fun e => emit (Warning (tx "Error calling Google Maps API: " ++ exn_text e)) ;;;
              ret (PInt 0, PInt 0)).

(** *** The submit handler (lines 182-264)

    [width], [length], [dist_to_pool] and [access_in] come from float number
    inputs, [lights] from an int one. *)

Record form_input := {
  address : text;
  width : float;
  length : float;
  dist_to_pool : float;
  access_in : float;
  steps : text;
  tracking : text;
  lights : Z;
  selected_pump : text;
  selected_heater : text }.

Definition in_keys {A} (k : text) (d : list (text * A)) : bool :=
  match assoc k d with Some _ => true | None => false end.

(** The widgets' domains (lines 168-178): finite numbers above the
    [min_value] bounds, an int in the widget's range, the radio options and
    the selectbox keys. *)
Definition widget_domain (f : form_input) : bool :=
  is_finite (width f) && (1 <=? width f)
  && is_finite (length f) && (1 <=? length f)
  && is_finite (dist_to_pool f) && (0 <=? dist_to_pool f)
  && is_finite (access_in f) && (0 <=? access_in f)
  && (text_eqb (steps f) (tx "Yes") || text_eqb (steps f) (tx "No"))
  && (text_eqb (tracking f) (tx "Side Mount Single Track")
      || text_eqb (tracking f) (tx "Bullnose Single Track"))
  && (0 <=? lights f)%Z && (lights f <? 2 ^ 53)%Z
  && in_keys (selected_pump f) PUMP_OPTIONS
  && in_keys (selected_heater f) HEATER_OPTIONS.

(** The values of lines 186-209, named as in the source. *)
Record line_items := {
  linear_feet : float; sqft : float;
  category : size_category; difficulty_of : difficulty;
  permit_cost : Z; drive_cost : pynum;
  costs : base_costs; base_liner : float; extra : float;
  tracking_cost : pynum; hpb : float; steel : float; concrete : float;
  soft : float; winter_area : float; lights_total : pynum;
  transformer : pynum; pump_cost : float; heater_cost : float }.

(** The list passed to [sum] (lines 211-222). *)
Definition total_terms (i : line_items) : list pynum := [
  PInt (Excavation (costs i)); PInt (PoolWork (costs i)); PInt (Liner (costs i));
  PFloat (base_liner i + extra i); PFloat (hpb i); PFloat (steel i);
  tracking_cost i;
  PFloat (concrete i); PFloat (soft i);
  lights_total i; transformer i;
  PFloat (DrainKit FIXED_COSTS); PFloat (Plumbing FIXED_COSTS);
  PFloat (heater_cost i);
  PFloat (Filter FIXED_COSTS); PFloat (pump_cost i);
  PFloat (SaltSystem FIXED_COSTS);
  PFloat (WinterCoverLabour FIXED_COSTS); PFloat (winter_area i);
  PInt (permit_cost i); drive_cost i].

(** [breakdown] (lines 241-264). *)
Definition breakdown_of (i : line_items) (total : pynum) : list (text * pynum) := [
  (tx "Excavation", PInt (Excavation (costs i)));
  (tx "Pool Work", PInt (PoolWork (costs i)));
  (tx "Liner Labor", PInt (Liner (costs i)));
  (tx "Liner Material + Steps", PFloat (base_liner i + extra i));
  (tx "HPB", PFloat (hpb i));
  (tx "Steel", PFloat (steel i));
  (tx "Tracking", tracking_cost i);
  (tx "Concrete", PFloat (concrete i));
  (tx "Softbottom", PFloat (soft i));
  (tx "Lights", lights_total i);
  (tx "Transformer", transformer i);
  (tx "Drain Kit", PFloat (DrainKit FIXED_COSTS));
  (tx "Plumbing", PFloat (Plumbing FIXED_COSTS));
  (tx "Heater", PFloat (heater_cost i));
  (tx "Filter", PFloat (Filter FIXED_COSTS));
  (tx "Pump", PFloat (pump_cost i));
  (tx "Salt System (+salt)", PFloat (SaltSystem FIXED_COSTS));
  (tx "Winter Cover Area", PFloat (winter_area i));
  (tx "Winter Cover Labour", PFloat (WinterCoverLabour FIXED_COSTS));
  (tx "Permit", PInt (permit_cost i));
  (tx "Drive Time Labour", drive_cost i);
  (tx "Total", total)].

(** The summary record; display formatting is not modelled. *)
Record summary := {
  s_address : text; s_width : float; s_length : float;
  s_linear_feet : float; s_sqft : float;
  s_category : size_category; s_difficulty : difficulty; s_city : text;
  s_steps : text; s_tracking : text; s_lights : Z;
  s_pump : text; s_heater : text;
  s_drive_km : pynum; s_drive_hr : pynum }.

Record estimate := {
  est_summary : summary;
  est_breakdown : list (text * pynum) }.

Definition summary_of (f : form_input) (i : line_items) (drive_km drive_hr : pynum)
  : summary := {|
  s_address := address f;
  s_width := width f; s_length := length f;
  s_linear_feet := linear_feet i; s_sqft := sqft i;
  s_category := category i; s_difficulty := difficulty_of i;
  s_city := get_city (address f);
  s_steps := steps f; s_tracking := tracking f; s_lights := lights f;
  s_pump := selected_pump f; s_heater := selected_heater f;
  s_drive_km := drive_km; s_drive_hr := drive_hr |}.

Definition submit (gmaps : provider) (f : form_input) : M (option estimate) :=
  if is_blank (address f) then
    emit (ErrorMsg VALIDATION_MSG) ;;;
    ret None
  else
    let linear_feet := 2 * (width f + length f) in
    let sqft := width f * length f in
    let category := category_of linear_feet in
    let difficulty := calculate_difficulty (dist_to_pool f) (access_in f) in
    let permit_cost := get_permit_cost (address f) in
    dk <- get_drive_km_and_time gmaps DEPOT (address f) ;;
    let drive_km := fst dk in
    let drive_hr := snd dk in
    c35 <- py_mul drive_hr (PInt 35) ;;
    c26 <- py_mul c35 (PInt 26) ;;
    drive_cost <- py_mul c26 (PInt 4) ;;
    let costs := COST_TABLE category difficulty in
    let base_liner := INSTALL_COST category in
    let extra := if text_eqb (steps f) (tx "Yes") then linear_feet * 22.12
                 else linear_feet * 22.12 + 300 in
    c <- py_ceil (linear_feet / 10) ;;
    let rounded := (c * 10)%Z in
    let track_rate := if text_eqb (tracking f) (tx "Side Mount Single Track")
                      then 4.27 else 8.39 in
    tracking_cost <- py_mul (PInt rounded) (PFloat track_rate) ;;
    let hpb := linear_feet * 7.25 in
    let steel := linear_feet * 50 in
    let concrete := sqft * 5.25 in
    let soft := sqft * 0.50 in
    let winter_area := sqft * 3.50 in
    lights_total <- py_mul (PInt (lights f)) (PFloat 366.65) ;;
    let transformer := if (0 <? lights f)%Z then PFloat (Transformer FIXED_COSTS)
                       else PInt 0 in
    pump_cost <- dict_get PUMP_OPTIONS (selected_pump f) ;;
    heater_cost <- dict_get HEATER_OPTIONS (selected_heater f) ;;
    let i := {| linear_feet := linear_feet; sqft := sqft; category := category;
                difficulty_of := difficulty; permit_cost := permit_cost;
                drive_cost := drive_cost; costs := costs;
                base_liner := base_liner; extra := extra;
                tracking_cost := tracking_cost; hpb := hpb; steel := steel;
                concrete := concrete; soft := soft; winter_area := winter_area;
                lights_total := lights_total; transformer := transformer;
                pump_cost := pump_cost; heater_cost := heater_cost |} in
    total <- py_sum (total_terms i) ;;
    emit (SuccessMsg (tx "Estimate Ready")) ;;;
    ret (Some {| est_summary := summary_of f i drive_km drive_hr;
                 est_breakdown := breakdown_of i total |}).

(** *** Helpers for the statements *)

Definition breakdown_total (e : estimate) : option pynum :=
  assoc (tx "Total") (est_breakdown e).

Definition submit_total (gmaps : provider) (f : form_input) : option pynum :=
  match run (submit gmaps f) with
  | (inr (Some e), _) => breakdown_total e
  | _ => None
  end.

(** The exceptions raised by the conversions of lines 192-222. *)
Definition arith_error (e : exn) : Prop :=
  match e with OverflowError _ | ValueError _ => True | _ => False end.

(** The drive hours the handler uses for an address. *)
Definition drive_hours (g : provider) (addr : text) : pynum :=
  match get_drive_km_and_time g DEPOT addr [] with
  | (inr (_, h), _) => h
  | _ => PInt 0
  end.

(** Specification side (section 4.6, steps 1-7): the 21 listed terms, in
    the listed order, with the program's tables and number kinds. *)
Definition spec_terms (f : form_input) (hr : pynum) (pumpCost heaterCost : float)
  : M (list pynum) :=
  let linearFeet := 2 * (width f + length f) in
  let sqft := width f * length f in
  let cat := category_of linearFeet in
  let baseCosts := COST_TABLE cat (calculate_difficulty (dist_to_pool f) (access_in f)) in
  let linerExtra := if text_eqb (steps f) (tx "Yes") then linearFeet * 22.12
                    else linearFeet * 22.12 + 300 in
  let trackRate := if text_eqb (tracking f) (tx "Side Mount Single Track")
                   then 4.27 else 8.39 in
  c <- py_ceil (linearFeet / 10) ;;
  trackingCost <- py_mul (PInt (c * 10)%Z) (PFloat trackRate) ;;
  lightsTotal <- py_mul (PInt (lights f)) (PFloat 366.65) ;;
  d1 <- py_mul hr (PInt 35) ;; d2 <- py_mul d1 (PInt 26) ;;
  driveCost <- py_mul d2 (PInt 4) ;;
  let transformer := if (0 <? lights f)%Z then PFloat (Transformer FIXED_COSTS)
                     else PInt 0 in
  ret [PInt (Excavation baseCosts); PInt (PoolWork baseCosts);
       PInt (Liner baseCosts); PFloat (INSTALL_COST cat + linerExtra);
       PFloat (linearFeet * 7.25); PFloat (linearFeet * 50); trackingCost;
       PFloat (sqft * 5.25); PFloat (sqft * 0.50); lightsTotal; transformer;
       PFloat (DrainKit FIXED_COSTS); PFloat (Plumbing FIXED_COSTS);
       PFloat heaterCost; PFloat (Filter FIXED_COSTS); PFloat pumpCost;
       PFloat (SaltSystem FIXED_COSTS); PFloat (WinterCoverLabour FIXED_COSTS);
       PFloat (sqft * 3.50); PInt (get_permit_cost (address f)); driveCost].

(** The 21 entries before [Total], in the order they are added into it:
    the breakdown's order with Winter Cover Labour before Winter Cover
    Area. *)
Definition sum_order (items : list (text * pynum)) : list (text * pynum) :=
  firstn 17 items ++ [nth 18 items (tx "", PInt 0); nth 17 items (tx "", PInt 0)]
  ++ skipn 19 items.

Definition provider_ok (meters seconds : Z) : provider :=
  fun _ _ => ApiReturns [[{| el_status := tx "OK";
                              el_distance := Some meters;
                              el_duration := Some seconds |}]].

Definition provider_failing : provider := fun _ _ => ApiRaises (tx "timeout").

Definition warnings (ms : list message) : list text :=
  flat_map (fun m => match m with Warning w => [w] | _ => [] end) ms.

(** The form's default values with a Burlington address. *)
Definition sample_form : form_input := {|
  address := tx "12 Elm St, Burlington, ON";
  width := 16; length := 32; dist_to_pool := 65; access_in := 65;
  steps := tx "Yes"; tracking := tx "Side Mount Single Track"; lights := 0;
  selected_pump := first_pump; selected_heater := first_heater |}.

Definition with_dims (f : form_input) (w l d a : float) : form_input :=
  {| address := address f; width := w; length := l;
     dist_to_pool := d; access_in := a;
     steps := steps f; tracking := tracking f; lights := lights f;
     selected_pump := selected_pump f; selected_heater := selected_heater f |}.

Definition with_lights (f : form_input) (n : Z) : form_input :=
  {| address := address f; width := width f; length := length f;
     dist_to_pool := dist_to_pool f; access_in := access_in f;
     steps := steps f; tracking := tracking f; lights := n;
     selected_pump := selected_pump f; selected_heater := selected_heater f |}.

(** [a1 + ... + an] in exact arithmetic; [None] if a term is not finite. *)
Fixpoint exact_sum (l : list pynum) : option Q :=
  match l with
  | [] => Some 0%Q
  | x :: l' =>
      match pynum_value x, exact_sum l' with
      | Some v, Some s => Some (v + s)%Q
      | _, _ => None
      end
  end.

(** The computation raises only [OverflowError] or [ValueError], and emits
    no message. *)
Definition pure_arith {A} (m : M A) : Prop :=
  forall ms, exists r, m ms = (r, ms) /\ m [] = (r, []) /\
    match r with inl e => arith_error e | inr _ => True end.

(** The breakdown without the entries that depend on the light count. *)
Definition without_light_items (b : list (text * pynum)) : list (text * pynum) :=
  filter (fun kv => negb (text_eqb (fst kv) (tx "Lights")
                          || text_eqb (fst kv) (tx "Transformer")
                          || text_eqb (fst kv) (tx "Total"))) b.

(** The magnitude of an [int], used to bound the conversions to [float]. *)
Definition int_size (x : pynum) : Z :=
  match x with PInt z => Z.abs z | PFloat _ => 0%Z end.

Definition blank_form : form_input := {|
  address := tx "  "; width := 16; length := 32; dist_to_pool := 65; access_in := 65;
  steps := tx "Yes"; tracking := tx "Side Mount Single Track"; lights := 0;
  selected_pump := first_pump; selected_heater := first_heater |}.

Definition unknown_pump_form : form_input := {|
  address := tx "12 Elm St, Burlington, ON";
  width := 16; length := 32; dist_to_pool := 65; access_in := 65;
  steps := tx "Yes"; tracking := tx "Side Mount Single Track"; lights := 0;
  selected_pump := tx "Unknown pump"; selected_heater := first_heater |}.

End Binary64.

(** ** Reruns of the Streamlit script

    Streamlit runs the whole script again after every interaction.  A
    button's value is [True] only during the rerun that its own click
    triggers, so [submit] (line 180) is [True] only on the rerun after
    "Generate Estimate" and [send_email] (line 283) only on the rerun after
    "Send Email". *)

Inductive ui_event :=
| ClickGenerate
| ClickSendEmail
| EditWidget.

(** The values of [submit] and [send_email] during the rerun an event
    triggers. *)
Definition buttons_on (ev : ui_event) : bool * bool :=
  match ev with
  | ClickGenerate => (true, false)
  | ClickSendEmail => (false, true)
  | EditWidget => (false, false)
  end.

Record rerun := {
  r_event : ui_event;
  r_form : Binary64.form_input;
  r_recipient : text; r_sender : text; r_password : text }.

(** One run of the script, lines 182-301: the results of the e-mail branch
    of line 285 when it is reached, nested in [if submit:] and in the
    [else] branch that produced the estimate. *)
Definition script_email_branch (g : Binary64.provider) (hp : header_policy)
  (fs : file_system) (server : smtp_server) (r : rerun)
  : list (option send_failure * list message * list smtp_op) :=
  let '(submit, send_email) := buttons_on (r_event r) in
  if submit then
    match fst (run (Binary64.submit g (r_form r))) with
    | inr (Some _) =>
        if send_email then
          let a := Binary64.address (r_form r) in
          [email_branch hp fs server (r_recipient r) (r_sender r) (r_password r)
             a (pdf_file_path a)]
        else []
    | _ => []
    end
  else [].

Definition session_email_branches (g : Binary64.provider) (hp : header_policy)
  (fs : file_system) (server : smtp_server) (rs : list rerun)
  : list (option send_failure * list message * list smtp_op) :=
  flat_map (script_email_branch g hp fs server) rs.

(** ** Proofs *)


Lemma Qle_bool_true_iff (x y : Q) : Qle_bool x y = true <-> x <= y.
Proof. apply Qle_bool_iff. Qed.

Lemma Qle_bool_false_iff (x y : Q) : Qle_bool x y = false <-> y < x.
Proof.
  split; intro H.
  - apply Qnot_le_lt. intro H'. apply Qle_bool_iff in H'. congruence.
  - destruct (Qle_bool x y) eqn:E; [|reflexivity].
    apply Qle_bool_iff in E. lra.
Qed.

Ltac qcases :=
  repeat match goal with
  | |- context [Qle_bool ?x ?y] =>
      let E := fresh "E" in
      destruct (Qle_bool x y) eqn:E;
      [apply Qle_bool_true_iff in E | apply Qle_bool_false_iff in E]
  end.

(** C2: the size category from the perimeter [linearFeet = 2*(width+length)]:
    Small up to 76 inclusive, Medium above 76 up to 104 inclusive, Large
    above 104; 76 is Small, 104 is Medium, 76.0001 Medium, 104.0001 Large. *)
Theorem category_of_thresholds (w l : Q) :
  let lf := 2 * (w + l) in
  (category_of lf = Small <-> lf <= 76) /\
  (category_of lf = Medium <-> 76 < lf /\ lf <= 104) /\
  (category_of lf = Large <-> 104 < lf) /\
  category_of 76 = Small /\ category_of 76.0001 = Medium /\
  category_of 104 = Medium /\ category_of 104.0001 = Large.
Proof.
  intro lf.
  refine (conj _ (conj _ (conj _ (conj eq_refl (conj eq_refl
            (conj eq_refl eq_refl)))))); unfold category_of; qcases;
    split; intros; try discriminate; try reflexivity; try lra.
Qed.

(** C3: the difficulty tier is read off [score = distFactor * accessFactor],
    where [distFactor] is 1 up to 70 ft, 2 up to 120 ft and 3 beyond, and
    [accessFactor] is 2 below 70 in and 1 otherwise: Easy iff the score is
    1, Moderate iff it is 2, Difficult iff it is 3, 4 or 6.  The spec's four
    sample points are included. *)
Theorem calculate_difficulty_by_score (d a : Q) :
  (exists dist_factor acc_factor : Z,
     (d <= 70 -> dist_factor = 1%Z) /\
     (70 < d -> d <= 120 -> dist_factor = 2%Z) /\
     (120 < d -> dist_factor = 3%Z) /\
     (a < 70 -> acc_factor = 2%Z) /\
     (70 <= a -> acc_factor = 1%Z) /\
     let score := (dist_factor * acc_factor)%Z in
     (calculate_difficulty d a = Easy <-> score = 1%Z) /\
     (calculate_difficulty d a = Moderate <-> score = 2%Z) /\
     (calculate_difficulty d a = Difficult <-> In score [3; 4; 6]%Z)) /\
  calculate_difficulty 60 80 = Easy /\
  calculate_difficulty 90 60 = Difficult /\
  calculate_difficulty 150 80 = Difficult /\
  calculate_difficulty 70 69.9 = Moderate.
Proof.
  refine (conj _ (conj eq_refl (conj eq_refl (conj eq_refl eq_refl)))).
  unfold calculate_difficulty, Qltb.
  destruct (Qle_bool d 70) eqn:E1;
    [apply Qle_bool_true_iff in E1 | apply Qle_bool_false_iff in E1];
  [exists 1%Z | destruct (Qle_bool d 120) eqn:E2;
     [apply Qle_bool_true_iff in E2; exists 2%Z
     | apply Qle_bool_false_iff in E2; exists 3%Z]];
  (destruct (Qle_bool 70 a) eqn:E3;
     [apply Qle_bool_true_iff in E3; exists 1%Z
     | apply Qle_bool_false_iff in E3; exists 2%Z]);
  cbn; repeat split; intros; try lra; try reflexivity; try discriminate;
  try (simpl in *; intuition discriminate);
  try (simpl; tauto).
Qed.

(** One run of the handler, effect by effect. *)
Lemma submit_run (g : provider) (f : form_input) :
  run (submit g f) =
  if is_blank (address f) then (inr None, [ErrorMsg VALIDATION_MSG])
  else match get_drive_km_and_time g DEPOT (address f) [] with
       | (inl e, ms) => (inl e, ms)
       | (inr dk, ms) =>
           match assoc (selected_pump f) PUMP_OPTIONS with
           | None => (inl (KeyError (selected_pump f)), ms)
           | Some p =>
               match assoc (selected_heater f) HEATER_OPTIONS with
               | None => (inl (KeyError (selected_heater f)), ms)
               | Some h =>
                   (inr (Some (assemble f (fst dk) (snd dk) p h)),
                    ms ++ [SuccessMsg (tx "Estimate Ready")])
               end
           end
       end.
Proof.
  unfold run, submit, bind, emit, ret, dict_get.
  destruct (is_blank (address f)); [reflexivity|].
  destruct (get_drive_km_and_time g DEPOT (address f) []) as [[e|dk] ms];
    [reflexivity|].
  destruct (assoc (selected_pump f) PUMP_OPTIONS); [|reflexivity].
  destruct (assoc (selected_heater f) HEATER_OPTIONS); reflexivity.
Qed.

Lemma total_entry (i : line_items) :
  assoc (tx "Total") (breakdown_of i) = Some (total_of i).
Proof. reflexivity. Qed.

Lemma breakdown_total_assemble f km hr p h :
  breakdown_total (assemble f km hr p h)
  = Some (total_of (compute_items f hr p h)).
Proof. apply total_entry. Qed.

Ltac fin_drive E := injection E; intros; subst; split; lra.

Lemma get_drive_nonneg (g : provider) (o d : text) (ms ms' : list message)
  (km hr : Q) :
  provider_nonneg g ->
  get_drive_km_and_time g o d ms = (inr (km, hr), ms') -> 0 <= km /\ 0 <= hr.
Proof.
  intros Hg E.
  unfold get_drive_km_and_time, try_except in E.
  cbv [bind ret raise emit nth_get opt_key] in E.
  destruct (is_blank d).
  { fin_drive E. }
  destruct (g o d) as [m|rows] eqn:G.
  { fin_drive E. }
  specialize (Hg o d rows G).
  destruct (nth_error rows 0) as [row|] eqn:R1;
    [|fin_drive E].
  destruct (nth_error row 0) as [el|] eqn:R2;
    [|fin_drive E].
  apply nth_error_In in R1, R2.
  rewrite Forall_forall in Hg. specialize (Hg row R1).
  rewrite Forall_forall in Hg. specialize (Hg el R2). destruct Hg as [Hd Ht].
  destruct (negb (text_eqb (el_status el) (tx "OK"))).
  { fin_drive E. }
  destruct (el_distance el) as [dv|]; [|fin_drive E].
  destruct (el_duration el) as [tv|]; [|fin_drive E].
  cbn in Hd, Ht. injection E as E1 E2 E3. subst. split.
  - apply Qle_shift_div_l; lra.
  - apply Qle_shift_div_l; lra.
Qed.

Lemma py_sum_nonneg_acc (l : list Q) (acc : Q) :
  0 <= acc -> Forall (fun x => 0 <= x) l -> 0 <= fold_left Qplus l acc.
Proof.
  revert acc. induction l as [|x l IH]; intros acc Ha Hl; cbn; [exact Ha|].
  inversion Hl; subst. apply IH; [lra | assumption].
Qed.

Lemma first_permit_nonneg (city : text) (d : list (text * Q)) :
  Forall (fun kv => 0 <= snd kv) d -> 0 <= first_permit city d.
Proof.
  induction d as [|[k v] d IH]; intro H; cbn; [lra|].
  inversion H; subst. destruct (contains k city); auto.
Qed.

Lemma assoc_nonneg (k : text) (d : list (text * Q)) (v : Q) :
  Forall (fun kv => 0 <= snd kv) d -> assoc k d = Some v -> 0 <= v.
Proof.
  induction d as [|[k' v'] d IH]; intros H E; cbn in E; [discriminate|].
  inversion H; subst. destruct (text_eqb k k'); [injection E as <-; auto | auto].
Qed.

Lemma table_nonneg_permit : Forall (fun kv => 0 <= snd kv) PERMIT_COSTS.
Proof. repeat constructor; cbn; discriminate. Qed.

Lemma table_nonneg_pump : Forall (fun kv => 0 <= snd kv) PUMP_OPTIONS.
Proof. repeat constructor; cbn; discriminate. Qed.

Lemma table_nonneg_heater : Forall (fun kv => 0 <= snd kv) HEATER_OPTIONS.
Proof. repeat constructor; cbn; discriminate. Qed.

Lemma cost_table_nonneg (c : size_category) (d : difficulty) :
  0 <= Excavation (COST_TABLE c d) /\ 0 <= PoolWork (COST_TABLE c d)
  /\ 0 <= Liner (COST_TABLE c d).
Proof. destruct c, d; cbn; repeat split; discriminate. Qed.

Lemma install_cost_nonneg (c : size_category) : 0 <= INSTALL_COST c.
Proof. destruct c; cbn; discriminate. Qed.

Lemma compute_items_nonneg (f : form_input) (hr p h : Q) :
  0 < width f -> 0 < length f -> (0 <= lights f)%Z -> 0 <= hr ->
  0 <= p -> 0 <= h ->
  Forall (fun kv => 0 <= snd kv) (breakdown_of (compute_items f hr p h)).
Proof.
  intros Hw Hl Hn Hr Hp Hh.
  set (lf := 2 * (width f + length f)).
  assert (Hlf : 0 < lf) by (unfold lf; lra).
  assert (Hsq : 0 <= width f * length f) by (apply Qmult_le_0_compat; lra).
  assert (Hceil : 0 <= inject_Z (Qceiling (lf / 10))).
  { apply Qle_trans with (lf / 10); [apply Qle_shift_div_l; lra|].
    apply Qle_ceiling. }
  assert (Hlights : 0 <= inject_Z (lights f)).
  { change 0 with (inject_Z 0). rewrite <- Zle_Qle. exact Hn. }
  assert (Hpermit : 0 <= get_permit_cost (address f)).
  { apply first_permit_nonneg, table_nonneg_permit. }
  destruct (cost_table_nonneg (category_of lf)
              (calculate_difficulty (dist_to_pool f) (access_in f)))
    as [Hc1 [Hc2 Hc3]].
  pose proof (install_cost_nonneg (category_of lf)) as Hi.
  assert (Htrack : forall r : Q, 0 <= r ->
            0 <= inject_Z (Qceiling (lf / 10) * 10) * r).
  { intros r Hr0. rewrite inject_Z_mult.
    apply Qmult_le_0_compat; [apply Qmult_le_0_compat; [exact Hceil|]|];
      [discriminate | exact Hr0]. }
  set (i := compute_items f hr p h).
  assert (Hextra : 0 <= base_liner i + extra i).
  { cbn [i compute_items base_liner extra]. fold lf.
    destruct (text_eqb (steps f) (tx "Yes")); lra. }
  assert (Htr : 0 <= tracking_cost i).
  { cbn [i compute_items tracking_cost]. fold lf.
    destruct (text_eqb (tracking f) (tx "Side Mount Single Track"));
      apply Htrack; discriminate. }
  assert (Htf : 0 <= transformer i).
  { cbn [i compute_items transformer].
    destruct (0 <? lights f)%Z; cbn; discriminate. }
  assert (Hrest : 0 <= hpb i /\ 0 <= steel i /\ 0 <= concrete i /\
                  0 <= soft i /\ 0 <= winter_area i /\ 0 <= lights_total i /\
                  0 <= permit_cost i /\ 0 <= drive_cost i /\
                  0 <= pump_cost i /\ 0 <= heater_cost i /\
                  0 <= Excavation (costs i) /\ 0 <= PoolWork (costs i) /\
                  0 <= Liner (costs i)).
  { cbn [i compute_items hpb steel concrete soft winter_area lights_total
      permit_cost drive_cost pump_cost heater_cost costs]. fold lf.
    repeat match goal with |- _ /\ _ => split end; lra. }
  destruct Hrest as (H1 & H2 & H3 & H4 & H5 & H6 & H7 & H8 & H9 & H10 & H11
                     & H12 & H13).
  assert (Htot : 0 <= total_of i).
  { unfold total_of, py_sum. apply py_sum_nonneg_acc; [lra|].
    repeat constructor; cbn; try assumption; discriminate. }
  unfold breakdown_of.
  repeat constructor; cbn [snd]; try assumption; discriminate.
Qed.

(** C8: for valid inputs (positive width and length, non-negative distance,
    access width and light count, pump and heater taken from their tables)
    and a provider reporting non-negative distances and times, every entry
    of the breakdown, the Total included, is non-negative. *)
Theorem breakdown_entries_nonneg (g : provider) (f : form_input) :
  0 < width f -> 0 < length f -> 0 <= dist_to_pool f -> 0 <= access_in f ->
  (0 <= lights f)%Z ->
  in_keys (selected_pump f) PUMP_OPTIONS = true ->
  in_keys (selected_heater f) HEATER_OPTIONS = true ->
  provider_nonneg g ->
  match run (submit g f) with
  | (inr (Some e), _) => Forall (fun kv => 0 <= snd kv) (est_breakdown e)
  | _ => True
  end.
Proof.
  intros Hw Hl _ _ Hn _ _ Hg.
  rewrite submit_run.
  destruct (is_blank (address f)); [exact I|].
  destruct (get_drive_km_and_time g DEPOT (address f) []) as [[e|[km hr]] ms]
    eqn:E; [exact I|].
  destruct (get_drive_nonneg g _ _ _ _ _ _ Hg E) as [_ Hr].
  destruct (assoc (selected_pump f) PUMP_OPTIONS) as [p|] eqn:Ep; [|exact I].
  destruct (assoc (selected_heater f) HEATER_OPTIONS) as [h|] eqn:Eh;
    [|exact I].
  apply compute_items_nonneg; auto.
  - exact (assoc_nonneg _ _ _ table_nonneg_pump Ep).
  - exact (assoc_nonneg _ _ _ table_nonneg_heater Eh).
Qed.

(** *** The [get_city] matcher *)

Lemma ascii_lower_eqb (x y : ascii) :
  Ascii.eqb (ascii_lower x) (ascii_lower y) = true <-> ascii_lower x = ascii_lower y.
Proof. apply Ascii.eqb_eq. Qed.

Lemma prefix_ci_iff (k s : text) :
  prefix_ci k s = true <-> exists w r, s = w ++ r /\ lower w = lower k.
Proof.
  revert s. induction k as [|x k IH]; intro s; cbn.
  - split; [intros _; exists [], s; auto | auto].
  - destruct s as [|y s]; cbn.
    + split; [discriminate|]. intros (w & r & E & L).
      destruct w; [discriminate L | discriminate E].
    + rewrite andb_true_iff, ascii_lower_eqb, IH. split.
      * intros [Hxy (w & r & -> & L)]. exists (y :: w), r.
        split; [reflexivity|]. unfold lower in *. cbn. rewrite L, Hxy.
        reflexivity.
      * intros (w & r & E & L). destruct w as [|z w]; [discriminate L|].
        injection E as -> ->. unfold lower in L. cbn in L.
        injection L as L1 L2. split; [auto|].
        exists w, r. auto.
Qed.

Lemma match_alt_iff (s : text) :
  match_alt s = true <-> exists w r, s = w ++ r /\ is_ontario w.
Proof.
  unfold match_alt, is_ontario. rewrite orb_true_iff, !prefix_ci_iff.
  split.
  - intros [(w & r & E & L)|(w & r & E & L)]; exists w, r; auto.
  - intros (w & r & E & [L|L]); [left|right]; exists w, r; auto.
Qed.

Lemma match_alt_tail (s : text) : match_alt s = true -> match_tail s = true.
Proof. intro H. destruct s; cbn; [exact H | rewrite H; apply orb_true_r]. Qed.

Lemma match_tail_iff (s : text) :
  match_tail s = true <->
  exists ws r, s = ws ++ r /\ Forall (fun c => is_space c = true) ws
               /\ match_alt r = true.
Proof.
  split.
  - induction s as [|c s IH]; cbn; intro H.
    + exists [], []. auto.
    + apply orb_true_iff in H as [H|H].
      * apply andb_true_iff in H as [Hc H].
        destruct (IH H) as (ws & r & -> & F & A).
        exists (c :: ws), r. auto.
      * exists [], (c :: s). auto.
  - intros (ws & r & -> & F & A). induction F as [|c ws Hc F IH]; cbn.
    + apply match_alt_tail, A.
    + rewrite Hc, IH. reflexivity.
Qed.

Lemma comma_not_in_class : in_group_class ","%char = false.
Proof. reflexivity. Qed.

Lemma lazy_group_complete (loc acc t_ : text) :
  loc <> [] -> Forall (fun c => in_group_class c = true) loc ->
  match_tail t_ = true ->
  lazy_group (loc ++ ","%char :: t_) acc = Some (acc ++ loc).
Proof.
  revert acc. induction loc as [|c loc IH]; intros acc Hne F Ht;
    [contradiction|].
  inversion F as [|? ? Hc F']; subst. cbn. rewrite Hc.
  destruct loc as [|d loc'].
  - cbn. rewrite Ht. reflexivity.
  - inversion F' as [|? ? Hd _]; subst.
    assert (Hd' : Ascii.eqb d ","%char = false).
    { destruct (Ascii.eqb d ","%char) eqn:E; [|reflexivity].
      apply Ascii.eqb_eq in E. subst. discriminate Hd. }
    cbn [app after_group]. rewrite Hd'. cbn [andb].
    rewrite IH; [rewrite <- app_assoc; reflexivity | discriminate | auto | auto].
Qed.

Lemma lazy_group_sound (s acc g : text) :
  lazy_group s acc = Some g ->
  exists loc t_, s = loc ++ ","%char :: t_ /\ loc <> [] /\
    Forall (fun c => in_group_class c = true) loc /\
    match_tail t_ = true /\ g = acc ++ loc.
Proof.
  revert acc. induction s as [|c s IH]; intros acc H; cbn in H; [discriminate|].
  destruct (in_group_class c) eqn:Hc; [|discriminate].
  destruct (after_group s) eqn:Ha.
  - injection H as <-. destruct s as [|d s]; [discriminate|].
    cbn in Ha. apply andb_true_iff in Ha as [Hd Ht].
    apply Ascii.eqb_eq in Hd. subst d.
    exists [c], s. repeat split; auto. discriminate.
  - destruct (IH _ H) as (loc & t_ & -> & Hne & F & Ht & ->).
    exists (c :: loc), t_. repeat split; auto.
    + discriminate.
    + rewrite <- app_assoc. reflexivity.
Qed.

Lemma search_sound (s g : text) :
  search s = Some g -> exists p t_, group_at s p g t_.
Proof.
  induction s as [|c s IH]; intro H; cbn [search] in H.
  - discriminate.
  - destruct (lazy_group (c :: s) []) as [g'|] eqn:E.
    + injection H as <-. apply lazy_group_sound in E.
      destruct E as (loc & t_ & E' & Hne & F & Ht & ->).
      exists [], t_. unfold group_at. rewrite E'. auto.
    + destruct (IH H) as (p & t_ & E2 & Hr).
      exists (c :: p), t_. unfold group_at. rewrite E2. auto.
Qed.

Lemma search_leftmost (p s loc t_ : text) :
  group_at s p loc t_ ->
  (forall p' loc' t', group_at s p' loc' t' -> (List.length p <= List.length p')%nat) ->
  search s = Some loc.
Proof.
  revert s. induction p as [|c p IH]; intros s Hg Hmin.
  - destruct Hg as (-> & Hne & F & Ht). cbn [app].
    destruct loc as [|c loc]; [contradiction|].
    cbn [app search].
    pose proof (lazy_group_complete (c :: loc) [] t_ Hne F Ht) as L.
    cbn [app] in L. rewrite L. reflexivity.
  - destruct Hg as (E & Hne & F & Ht). subst s. cbn [app search].
    destruct (lazy_group (c :: p ++ loc ++ ","%char :: t_) []) as [g|] eqn:L.
    + exfalso. apply lazy_group_sound in L.
      destruct L as (loc' & t' & E & Hne' & F' & Ht' & _).
      assert (Hle : (List.length (c :: p) <= List.length (@nil ascii))%nat).
      { apply (Hmin [] loc' t'). unfold group_at. cbn [app].
        rewrite <- E. auto. }
      cbn in Hle. lia.
    + apply IH.
      * unfold group_at. auto.
      * intros p' loc' t' Hg'.
        assert (Hle : (List.length (c :: p) <= List.length (c :: p'))%nat).
        { apply (Hmin (c :: p') loc' t'). destruct Hg' as (E' & ?).
          unfold group_at. cbn [app]. rewrite E'. auto. }
        cbn in Hle. lia.
Qed.

Lemma city_pattern_group_at (a p loc : text) :
  (exists ws w r, city_pattern_at a p loc ws w r) <->
  (exists t_, group_at a p loc t_).
Proof.
  split.
  - intros (ws & w & r & E & Hne & F & Fs & Ho).
    exists (ws ++ w ++ r). repeat split; auto.
    apply match_tail_iff. exists ws, (w ++ r). repeat split; auto.
    apply match_alt_iff. eauto.
  - intros (t_ & E & Hne & F & Ht).
    apply match_tail_iff in Ht as (ws & r & -> & Fs & A).
    apply match_alt_iff in A as (w & r' & -> & Ho).
    exists ws, w, r'. repeat split; auto.
Qed.

(** C5: [get_city] returns the empty text when the address has no
    "<locality>, ON"/"<locality>, Ontario" occurrence, and otherwise the
    locality of the leftmost occurrence ([loc], the whole run of word
    characters, spaces and hyphens before its comma), trimmed and
    lower-cased. *)
Theorem get_city_spec :
  (forall a, (forall p loc ws w r, ~ city_pattern_at a p loc ws w r) ->
     get_city a = []) /\
  (forall a p loc ws w r, city_pattern_at a p loc ws w r ->
     (forall p' loc' ws' w' r', city_pattern_at a p' loc' ws' w' r' ->
        (List.length p <= List.length p')%nat) ->
     get_city a = lower (strip loc)).
Proof.
  split.
  - intros a Hno. unfold get_city.
    destruct (search a) as [g|] eqn:S; [|reflexivity].
    exfalso. apply search_sound in S as (p & t_ & Hg).
    destruct (proj2 (city_pattern_group_at a p g) (ex_intro _ t_ Hg))
      as (ws & w & r & Hc).
    exact (Hno _ _ _ _ _ Hc).
  - intros a p loc ws w r Hc Hmin. unfold get_city.
    assert (Hg : exists t_, group_at a p loc t_).
    { apply city_pattern_group_at. eauto. }
    destruct Hg as [t_ Hg].
    rewrite (search_leftmost p a loc t_ Hg); [reflexivity|].
    intros p' loc' t' Hg'.
    destruct (proj2 (city_pattern_group_at a p' loc') (ex_intro _ t' Hg'))
      as (ws' & w' & r' & Hc'). exact (Hmin _ _ _ _ _ Hc').
Qed.

(** *** Permit lookup *)

Lemma is_prefix_iff (k s : text) :
  is_prefix k s = true <-> exists y, s = k ++ y.
Proof.
  revert s. induction k as [|x k IH]; intro s; cbn.
  - split; eauto.
  - destruct s as [|y s].
    + split; [discriminate | intros [z E]; discriminate].
    + rewrite andb_true_iff, Ascii.eqb_eq, IH. split.
      * intros [-> [z ->]]. eauto.
      * intros [z E]. injection E as -> ->. eauto.
Qed.

Lemma contains_iff (k s : text) : contains k s = true <-> substring k s.
Proof.
  unfold substring. induction s as [|c s IH]; cbn.
  - rewrite orb_false_r, is_prefix_iff. split.
    + intros [y E]. exists [], y. exact E.
    + intros (x & y & E). destruct x; [eauto|discriminate].
  - rewrite orb_true_iff, is_prefix_iff, IH. split.
    + intros [[y E]|(x & y & E)]; [exists [], y; exact E|].
      exists (c :: x), y. rewrite E. reflexivity.
    + intros (x & y & E). destruct x as [|d x]; [left; eauto|].
      injection E as -> E. right. eauto.
Qed.

Lemma first_permit_first (city : text) (d : list (text * Q)) :
  (exists pre k v post, d = pre ++ (k, v) :: post /\
     Forall (fun e => ~ substring (fst e) city) pre /\
     substring k city /\ first_permit city d = v) \/
  (Forall (fun e => ~ substring (fst e) city) d /\ first_permit city d = 0).
Proof.
  induction d as [|[k v] d IH]; cbn.
  - right. auto.
  - destruct (contains k city) eqn:C.
    + left. exists [], k, v, d. apply contains_iff in C. auto.
    + assert (Hn : ~ substring k city).
      { rewrite <- contains_iff, C. discriminate. }
      destruct IH as [(pre & k' & v' & post & -> & F & S & E)|[F E]].
      * left. exists ((k, v) :: pre), k', v', post. auto.
      * right. auto.
Qed.

(** C4 (counterexample): an address containing "Toronto, ON" whose
    extracted city also contains "burlington" pays Burlington's 1000. *)
Lemma permit_toronto_address_not_500 :
  contains (tx "Toronto, ON") (tx "1 Burlington Ave Toronto, ON") = true /\
  get_city (tx "1 Burlington Ave Toronto, ON") = tx "1 burlington ave toronto" /\
  get_permit_cost (tx "1 Burlington Ave Toronto, ON") = 1000.
Proof. vm_compute. auto. Qed.

(** C4 (amended): the permit fee is the fee of the first table entry, in
    the table's order, whose key is a substring of [get_city address], and 0
    when no key is; the spec's three sample addresses give 500, 1000 and 0. *)
Theorem permit_first_match (address : text) :
  ((exists pre k v post, PERMIT_COSTS = pre ++ (k, v) :: post /\
      Forall (fun e => ~ substring (fst e) (get_city address)) pre /\
      substring k (get_city address) /\ get_permit_cost address = v) \/
   (Forall (fun e => ~ substring (fst e) (get_city address)) PERMIT_COSTS /\
    get_permit_cost address = 0)) /\
  get_permit_cost (tx "123 Main St, Toronto, ON") = 500 /\
  get_permit_cost (tx "1 Rd, Burlington, Ontario") = 1000 /\
  get_permit_cost (tx "1 Rd, Nowhere, ON") = 0.
Proof.
  split; [apply first_permit_first|].
  split; [|split]; vm_compute; reflexivity.
Qed.

(** ** Witnesses *)

Lemma provider_ok_nonneg : provider_nonneg (provider_ok 5000 720).
Proof.
  intros o d rows E. injection E as <-.
  repeat constructor; cbn; discriminate.
Qed.

Lemma breakdown_entries_nonneg_witness :
  match run (submit (provider_ok 5000 720) sample_form) with
  | (inr (Some e), _) => Forall (fun kv => 0 <= snd kv) (est_breakdown e)
  | _ => True
  end.
Proof.
  apply (breakdown_entries_nonneg (provider_ok 5000 720) sample_form);
    try (vm_compute; reflexivity); try (vm_compute; discriminate).
  exact provider_ok_nonneg.
Defined.

Lemma get_city_spec_witness :
  get_city [] = [] /\ get_city (tx "Toronto, ON") = lower (strip (tx "Toronto")).
Proof.
  destruct get_city_spec as [H1 H2]. split.
  - apply H1. intros p loc ws w r (E & Hne & _).
    destruct p; [destruct loc; [contradiction|]|]; discriminate.
  - apply (H2 _ [] (tx "Toronto") (tx " ") (tx "ON") []).
    + split; [reflexivity|]. split; [discriminate|].
      split; [repeat constructor|]. split; [repeat constructor|].
      left. reflexivity.
    + intros. cbn. lia.
Defined.

(** ** Further properties of the code *)

(** *** [sanitize_filename] *)

Lemma word_not_space (c : ascii) : is_word c = true -> is_space c = false.
Proof. destruct c as [[][][][][][][][]]; vm_compute; intro H; first [reflexivity | discriminate H]. Qed.

Lemma lstrip_Forall (P : ascii -> Prop) (s : text) :
  Forall P s -> Forall P (lstrip s).
Proof.
  induction s as [|c s IH]; intro H; cbn; [constructor|].
  inversion H; subst. destruct (is_space c); auto.
Qed.

Lemma strip_Forall (P : ascii -> Prop) (s : text) :
  Forall P s -> Forall P (strip s).
Proof.
  intro H. unfold strip.
  apply Forall_rev, lstrip_Forall, Forall_rev, lstrip_Forall, H.
Qed.

Lemma split_go_words (s cur : text) :
  Forall (fun c => (is_word c || is_space c) = true) s ->
  Forall (fun c => is_word c = true) cur ->
  Forall (Forall (fun c => is_word c = true)) (split_go s cur).
Proof.
  revert cur. induction s as [|c s IH]; intros cur Hs Hc; cbn [split_go].
  - destruct cur; repeat constructor; apply Forall_rev; auto.
  - apply Forall_cons_iff in Hs as [Hc0 Hs'].
    destruct (is_space c) eqn:Sp.
    + destruct cur; [apply IH; auto|].
      constructor; [apply Forall_rev; exact Hc | apply IH; auto].
    + rewrite ?Sp, orb_false_r in Hc0. apply IH; auto.
Qed.

Lemma join_words (sep : text) (l : list text) :
  Forall (fun c => is_word c = true) sep ->
  Forall (Forall (fun c => is_word c = true)) l ->
  Forall (fun c => is_word c = true) (join sep l).
Proof.
  intro Hs. induction l as [|x l IH]; intro H; cbn; [constructor|].
  inversion H; subst. destruct l; [assumption|].
  apply Forall_app; split; [assumption|]. apply Forall_app; split; auto.
Qed.

Lemma sanitize_filename_words (a : text) :
  Forall (fun c => is_word c = true) (sanitize_filename a).
Proof.
  unfold sanitize_filename, split_ws. apply join_words.
  - repeat constructor.
  - apply split_go_words; [|constructor].
    apply strip_Forall. apply Forall_forall. intros c Hc.
    apply filter_In in Hc. apply Hc.
Qed.

Lemma pdf_file_path_chars (a : text) :
  Forall (fun c => (is_word c || Ascii.eqb c "."%char) = true) (pdf_file_path a).
Proof.
  unfold pdf_file_path. apply Forall_app. split.
  - eapply Forall_impl; [|exact (sanitize_filename_words a)].
    intros c H. rewrite H. reflexivity.
  - repeat constructor.
Qed.

Lemma pdf_file_path_no_slash (a : text) : ~ In "/"%char (pdf_file_path a).
Proof.
  intro H. pose proof (pdf_file_path_chars a) as P.
  rewrite Forall_forall in P. specialize (P _ H). discriminate P.
Qed.

(** X1: the sanitized address contains only word characters (letters,
    digits, underscore), so the PDF path built from it has no slash, space
    or punctuation other than the final dot: it names a file in the working
    directory; the spec's sample address gives "2168_Highway_54_Caledonia_ON". *)
Theorem pdf_file_path_safe (a : text) :
  Forall (fun c => is_word c = true) (sanitize_filename a) /\
  Forall (fun c => (is_word c || Ascii.eqb c "."%char) = true) (pdf_file_path a) /\
  ~ In "/"%char (pdf_file_path a) /\
  sanitize_filename (tx "2168 Highway 54, Caledonia, ON")
  = tx "2168_Highway_54_Caledonia_ON".
Proof.
  refine (conj (sanitize_filename_words a) (conj (pdf_file_path_chars a)
            (conj (pdf_file_path_no_slash a) _))).
  vm_compute. reflexivity.
Qed.

Lemma filter_all {A} (p : A -> bool) (l : list A) :
  Forall (fun x => p x = true) l -> filter p l = l.
Proof.
  induction l as [|x l IH]; intro H; cbn; [reflexivity|].
  inversion H; subst. rewrite H2, IH; auto.
Qed.

Lemma lstrip_no_space (s : text) :
  Forall (fun c => is_space c = false) s -> lstrip s = s.
Proof. intro H. destruct s as [|c s]; cbn; [reflexivity|]. inversion H; subst. rewrite H2. reflexivity. Qed.

Lemma split_go_no_space (w cur : text) :
  Forall (fun c => is_space c = false) w ->
  split_go w cur = match rev cur ++ w with [] => [] | x => [x] end.
Proof.
  revert cur. induction w as [|c w IH]; intros cur H; cbn.
  - rewrite app_nil_r. destruct cur as [|d cur]; [reflexivity|].
    cbn. destruct (rev cur ++ [d]) eqn:E; [|reflexivity].
    apply app_eq_nil in E as [_ E]. discriminate E.
  - inversion H; subst. rewrite H2, IH by assumption. cbn.
    rewrite <- app_assoc. reflexivity.
Qed.

(** X2: [sanitize_filename] is idempotent: a sanitized name is left
    unchanged by a second pass. *)
Theorem sanitize_filename_idempotent (a : text) :
  sanitize_filename (sanitize_filename a) = sanitize_filename a.
Proof.
  pose proof (sanitize_filename_words a) as W.
  set (w := sanitize_filename a) in *.
  assert (NS : Forall (fun c => is_space c = false) w).
  { eapply Forall_impl; [|exact W]. intros c H. apply word_not_space, H. }
  unfold sanitize_filename at 1.
  rewrite filter_all.
  2:{ eapply Forall_impl; [|exact W]. intros c H. rewrite H. reflexivity. }
  unfold strip. rewrite (lstrip_no_space w NS).
  rewrite (lstrip_no_space (rev w)) by (apply Forall_rev; exact NS).
  rewrite rev_involutive. unfold split_ws.
  rewrite split_go_no_space by assumption. cbn.
  destruct w; reflexivity.
Qed.

(** *** E-mail delivery *)



(** X4: the password is never sent before TLS: whenever the login step is
    attempted, the connection and STARTTLS steps were attempted before it
    and succeeded; and the message is only sent after a successful login. *)
Theorem smtp_login_after_starttls (hp : header_policy) (fs : file_system)
  (server : smtp_server) (sender pw recipient subject body path : text) :
  let log := snd (send_email_with_attachment hp fs server sender pw recipient
                    subject body path) in
  (forall u p, In (SmtpLogin u p) log ->
     server (SmtpConnect (tx "smtp.gmail.com") 587) = None /\
     server SmtpStarttls = None /\
     firstn 2 log = [SmtpConnect (tx "smtp.gmail.com") 587; SmtpStarttls]) /\
  (forall m, In (SmtpSend m) log -> server (SmtpLogin sender pw) = None).
Proof.
  unfold send_email_with_attachment.
  destruct (hp (tx "From") sender); [cbn [snd]; split; intros; contradiction|].
  destruct (hp (tx "To") recipient); [cbn [snd]; split; intros; contradiction|].
  destruct (hp (tx "Subject") subject); [cbn [snd]; split; intros; contradiction|].
  destruct (fs path) as [data|]; cbn [snd].
  2:{ split; intros; contradiction. }
  unfold smtp_ops. cbn [run_smtp].
  destruct (server (SmtpConnect (tx "smtp.gmail.com") 587)) eqn:S1;
  [|destruct (server SmtpStarttls) eqn:S2;
  [|destruct (server (SmtpLogin sender pw)) eqn:S3;
  [|destruct (server (SmtpSend _)) eqn:S4]]];
  cbn [snd app]; split; intros * H;
  repeat (destruct H as [H|H]; [try discriminate H; try (injection H as <- <-)|]);
  try contradiction; auto.
Qed.

(** X17: the e-mail branch never runs.  [if send_email:] (line 285) sits
    inside [if submit:] (line 182), and no rerun has both buttons [True]:
    over any sequence of interactions, whatever the inputs, the provider,
    the mail server and the file system, [send_email_with_attachment] is
    never called. *)
Theorem email_branch_never_runs (g : Binary64.provider) (hp : header_policy)
  (fs : file_system) (server : smtp_server) (rs : list rerun) :
  session_email_branches g hp fs server rs = [].
Proof.
  unfold session_email_branches.
  induction rs as [|r rs IH]; [reflexivity|].
  cbn [flat_map]. rewrite IH, app_nil_r. unfold script_email_branch.
  destruct (r_event r); cbn [buttons_on]; cbv beta iota;
    [destruct (fst (run (Binary64.submit g (r_form r)))) as [x|[e|]] | |];
    reflexivity.
Qed.

(** *** Pricing *)

(** Reduces a comparison of the Totals of two forms that differ in one
    input other than the address and the selected models. *)
Ltac total_pair :=
  unfold submit_total; rewrite !submit_run;
  cbn [with_dist with_access with_steps with_lights with_length
       address selected_pump selected_heater];
  match goal with |- context [is_blank ?a] => destruct (is_blank a) end;
  [exact I|];
  match goal with |- context [get_drive_km_and_time ?g ?o ?d []] =>
    destruct (get_drive_km_and_time g o d []) as [[? | [km hr]] ?] end;
  [exact I|];
  match goal with |- context [assoc (selected_pump ?f) PUMP_OPTIONS] =>
    destruct (assoc (selected_pump f) PUMP_OPTIONS) as [p|]; [|exact I] end;
  match goal with |- context [assoc (selected_heater ?f) HEATER_OPTIONS] =>
    destruct (assoc (selected_heater f) HEATER_OPTIONS) as [h|]; [|exact I] end;
  rewrite !breakdown_total_assemble; cbn [opt_rel fst snd];
  unfold total_of, py_sum, compute_items;
  cbn [fold_left lights with_lights with_dist with_access with_steps with_length
    width length tracking steps dist_to_pool access_in address costs base_liner
    extra tracking_cost hpb steel concrete soft lights_total transformer
    heater_cost pump_cost winter_area permit_cost drive_cost].

(** X6: the difficulty tier never improves as the distance to the pool
    grows, and never worsens as the access width grows. *)
Theorem calculate_difficulty_monotone (d1 d2 a1 a2 : Q) :
  (d1 <= d2 -> forall a, (difficulty_rank (calculate_difficulty d1 a)
                          <= difficulty_rank (calculate_difficulty d2 a))%nat) /\
  (a1 <= a2 -> forall d, (difficulty_rank (calculate_difficulty d a2)
                          <= difficulty_rank (calculate_difficulty d a1))%nat).
Proof.
  split; intros H x; unfold calculate_difficulty, Qltb; qcases; cbn;
    first [lia | lra].
Qed.

Lemma cost_table_monotone (c : size_category) (d1 d2 : difficulty) :
  (difficulty_rank d1 <= difficulty_rank d2)%nat ->
  Excavation (COST_TABLE c d1) <= Excavation (COST_TABLE c d2) /\
  PoolWork (COST_TABLE c d1) <= PoolWork (COST_TABLE c d2) /\
  Liner (COST_TABLE c d1) <= Liner (COST_TABLE c d2).
Proof.
  intro H. destruct c, d1, d2; cbn in H; try lia; cbn;
    repeat match goal with |- _ /\ _ => split end; lra.
Qed.

(** X7: with every other input and the provider fixed, the Total never
    decreases as the distance to the pool grows and never increases as
    the access width grows (both runs produce an estimate or neither
    does). *)
Theorem total_monotone_distance_access (g : provider) (f : form_input)
  (d1 d2 a1 a2 : Q) :
  (d1 <= d2 -> opt_rel Qle (submit_total g (with_dist f d1))
                           (submit_total g (with_dist f d2))) /\
  (a1 <= a2 -> opt_rel Qle (submit_total g (with_access f a2))
                           (submit_total g (with_access f a1))).
Proof.
  destruct (calculate_difficulty_monotone d1 d2 a1 a2) as [Md Ma].
  split; intro H; total_pair.
  - destruct (cost_table_monotone (category_of (2 * (width f + length f)))
      _ _ (Md H (access_in f))) as (E1 & E2 & E3). lra.
  - destruct (cost_table_monotone (category_of (2 * (width f + length f)))
      _ _ (Ma H (dist_to_pool f))) as (E1 & E2 & E3). lra.
Qed.

Lemma category_of_compat (x y : Q) : x == y -> category_of x = category_of y.
Proof.
  intro E. unfold category_of. rewrite !E. reflexivity.
Qed.

(** X11: the Total is not monotone in the pool size: an Easy pool whose
    perimeter is exactly 76 ft (Small) becomes cheaper when its length grows
    by 0.001 ft and it turns Medium (for a width between 0 and 38 ft). *)
Theorem total_drops_past_small (g : provider) (f : form_input) :
  width f + length f == 38 -> 0 <= width f <= 38 ->
  calculate_difficulty (dist_to_pool f) (access_in f) = Easy ->
  opt_rel Qlt (submit_total g (with_length f (length f + 0.001)))
              (submit_total g f).
Proof.
  intros Hs Hw Hd. total_pair. rewrite Hd.
  rewrite (category_of_compat (2 * (width f + (length f + 0.001))) 76.002)
    by (rewrite Qplus_assoc, Hs; reflexivity).
  rewrite (category_of_compat (2 * (width f + length f)) 76)
    by (rewrite Hs; reflexivity).
  rewrite (Qceiling_comp (2 * (width f + (length f + 0.001)) / 10) (76.002 / 10))
    by (rewrite Qplus_assoc, Hs; reflexivity).
  rewrite (Qceiling_comp (2 * (width f + length f) / 10) (76 / 10))
    by (rewrite Hs; reflexivity).
  replace (Qceiling (76.002 / 10)) with 8%Z by reflexivity.
  replace (Qceiling (76 / 10)) with 8%Z by reflexivity.
  replace (category_of 76.002) with Medium by reflexivity.
  replace (category_of 76) with Small by reflexivity.
  cbn [COST_TABLE mk_costs Excavation PoolWork Liner INSTALL_COST].
  assert (E : width f * (length f + 0.001) == width f * length f + width f * 0.001)
    by ring.
  rewrite !E. set (P := width f * length f).
  destruct (text_eqb (steps f) (tx "Yes")), (text_eqb (tracking f) _); lra.
Qed.

Lemma total_drops_past_small_witness :
  let f := with_access (with_length sample_form 22) 72 in
  width f + length f == 38 /\ 0 <= width f <= 38 /\
  calculate_difficulty (dist_to_pool f) (access_in f) = Easy /\
  opt_rel Qlt (submit_total (provider_ok 5000 720) (with_length f (length f + 0.001)))
              (submit_total (provider_ok 5000 720) f).
Proof.
  intro f. refine (conj _ (conj _ (conj _ _))).
  - vm_compute. reflexivity.
  - split; vm_compute; discriminate.
  - vm_compute. reflexivity.
  - apply total_drops_past_small; vm_compute;
      first [reflexivity | split; discriminate].
Defined.

(** *** City and permit lookup *)

(** X12: the permit fee is always one of 0, 500 and 1000, and it is 0
    exactly when no key of [PERMIT_COSTS] occurs in the extracted city. *)
Theorem permit_cost_values (a : text) :
  (get_permit_cost a = 0 \/ get_permit_cost a = 500 \/ get_permit_cost a = 1000) /\
  (get_permit_cost a = 0 <->
   forall k v, In (k, v) PERMIT_COSTS -> contains k (get_city a) = false).
Proof.
  unfold get_permit_cost, PERMIT_COSTS. cbn [first_permit].
  set (c := get_city a).
  repeat match goal with |- context [contains ?k c] =>
    let E := fresh "E" in destruct (contains k c) eqn:E end;
  (split; [tauto|]); split; intro H;
    try discriminate H;
    try (intros k v Hin; cbn in Hin;
         repeat (destruct Hin as [Hin|Hin]; [injection Hin as <- <-; assumption|]);
         contradiction);
    try reflexivity;
    (exfalso; match goal with E : contains ?k c = true |- _ =>
       assert (Hk : exists v, In (k, v) PERMIT_COSTS) by (eexists; cbn; tauto);
       destruct Hk as [v Hk]; rewrite (H k v Hk) in E; discriminate E end).
Qed.

Lemma ascii_lower_idem (c : ascii) : ascii_lower (ascii_lower c) = ascii_lower c.
Proof. destruct c as [[] [] [] [] [] [] [] []]; reflexivity. Qed.

Lemma is_space_lower (c : ascii) : is_space (ascii_lower c) = is_space c.
Proof. destruct c as [[] [] [] [] [] [] [] []]; reflexivity. Qed.

Lemma in_group_class_lower (c : ascii) :
  in_group_class (ascii_lower c) = in_group_class c.
Proof. destruct c as [[] [] [] [] [] [] [] []]; reflexivity. Qed.

Lemma comma_lower (c : ascii) :
  Ascii.eqb (ascii_lower c) ","%char = Ascii.eqb c ","%char.
Proof. destruct c as [[] [] [] [] [] [] [] []]; reflexivity. Qed.

Lemma lower_idem (s : text) : lower (lower s) = lower s.
Proof.
  unfold lower. rewrite map_map. apply map_ext. apply ascii_lower_idem.
Qed.

Lemma prefix_ci_lower (k s : text) : prefix_ci k (lower s) = prefix_ci k s.
Proof.
  revert s. induction k as [|x k IH]; intros [|y s]; cbn; try reflexivity.
  rewrite ascii_lower_idem, IH. reflexivity.
Qed.

Lemma match_alt_lower (s : text) : match_alt (lower s) = match_alt s.
Proof. unfold match_alt. rewrite !prefix_ci_lower. reflexivity. Qed.

Lemma match_tail_lower (s : text) : match_tail (lower s) = match_tail s.
Proof.
  induction s as [|c s IH]; [reflexivity|].
  change (lower (c :: s)) with (ascii_lower c :: lower s). cbn [match_tail].
  rewrite is_space_lower, IH.
  change (ascii_lower c :: lower s) with (lower (c :: s)).
  rewrite match_alt_lower. reflexivity.
Qed.

Lemma after_group_lower (s : text) : after_group (lower s) = after_group s.
Proof.
  destruct s as [|c s]; [reflexivity|].
  change (lower (c :: s)) with (ascii_lower c :: lower s). cbn [after_group].
  rewrite comma_lower, match_tail_lower. reflexivity.
Qed.

Lemma lazy_group_lower (s acc : text) :
  lazy_group (lower s) (lower acc) = option_map lower (lazy_group s acc).
Proof.
  revert acc. induction s as [|c s IH]; intro acc; [reflexivity|].
  change (lower (c :: s)) with (ascii_lower c :: lower s). cbn [lazy_group].
  rewrite in_group_class_lower, after_group_lower.
  destruct (in_group_class c); [|reflexivity].
  replace (lower acc ++ [ascii_lower c]) with (lower (acc ++ [c]))
    by (unfold lower; rewrite map_app; reflexivity).
  destruct (after_group s); [reflexivity|]. apply IH.
Qed.

Lemma search_lower (s : text) : search (lower s) = option_map lower (search s).
Proof.
  induction s as [|c s IH]; [reflexivity|].
  change (lower (c :: s)) with (ascii_lower c :: lower s). cbn [search].
  change (ascii_lower c :: lower s) with (lower (c :: s)).
  pose proof (lazy_group_lower (c :: s) []) as L.
  change (lower []) with (@nil ascii) in L. rewrite L.
  destruct (lazy_group (c :: s) []); [reflexivity|].
  exact IH.
Qed.

Lemma lstrip_lower (s : text) : lstrip (lower s) = lower (lstrip s).
Proof.
  induction s as [|c s IH]; [reflexivity|].
  change (lower (c :: s)) with (ascii_lower c :: lower s). cbn [lstrip].
  rewrite is_space_lower. destruct (is_space c); [exact IH | reflexivity].
Qed.

Lemma strip_lower (s : text) : strip (lower s) = lower (strip s).
Proof.
  unfold strip. rewrite lstrip_lower. unfold lower at 1. rewrite <- map_rev.
  fold (lower (rev (lstrip s))). rewrite lstrip_lower.
  unfold lower. rewrite map_rev. reflexivity.
Qed.

Lemma get_city_lower (s : text) : get_city (lower s) = get_city s.
Proof.
  unfold get_city. rewrite search_lower. destruct (search s); [|reflexivity].
  cbn [option_map]. rewrite strip_lower, lower_idem. reflexivity.
Qed.

(** X13: the city (and so the permit fee) depends only on the address with
    its ASCII letters lower-cased: addresses that differ only in letter case
    get the same city and the same fee; and the city is always lower case. *)
Theorem get_city_case_insensitive (a b : text) :
  lower a = lower b ->
  get_city a = get_city b /\ get_permit_cost a = get_permit_cost b /\
  lower (get_city a) = get_city a.
Proof.
  intro H.
  assert (C : get_city a = get_city b)
    by (rewrite <- (get_city_lower a), <- (get_city_lower b), H; reflexivity).
  refine (conj C (conj _ _)).
  - unfold get_permit_cost. rewrite C. reflexivity.
  - unfold get_city. destruct (search a); [apply lower_idem | reflexivity].
Qed.

Lemma get_city_case_insensitive_witness :
  lower (tx "12 Elm St, BURLINGTON, on") = lower (tx "12 elm st, burlington, ON") /\
  get_city (tx "12 Elm St, BURLINGTON, on") = get_city (tx "12 elm st, burlington, ON") /\
  get_permit_cost (tx "12 Elm St, BURLINGTON, on")
    = get_permit_cost (tx "12 elm st, burlington, ON") /\
  lower (get_city (tx "12 Elm St, BURLINGTON, on"))
    = get_city (tx "12 Elm St, BURLINGTON, on").
Proof.
  split; [vm_compute; reflexivity|].
  apply get_city_case_insensitive. vm_compute. reflexivity.
Defined.

(** *** Distance lookup and the handler's key lookups *)



(** ** Proofs in binary64 arithmetic *)

Module Binary64_proofs.

Import Binary64.
Local Set Warnings "-inexact-float".

(** *** The arithmetic raises only [OverflowError] or [ValueError] and emits
    no message *)


Lemma pure_ret {A} (a : A) : pure_arith (ret a).
Proof. intro ms. exists (inr a). repeat split. Qed.

Lemma pure_bind {A B} (m : M A) (k : A -> M B) :
  pure_arith m -> (forall a, pure_arith (k a)) -> pure_arith (bind m k).
Proof.
  intros Hm Hk ms. destruct (Hm ms) as ([e|a] & E1 & E2 & Er).
  - exists (inl e). unfold bind. rewrite E1, E2. auto.
  - destruct (Hk a ms) as (r & F1 & F2 & Fr). exists r.
    unfold bind. rewrite E1, E2, F1, F2. auto.
Qed.

Lemma pure_Z_to_float z : pure_arith (Z_to_float z).
Proof.
  intro ms. unfold Z_to_float. destruct (_ <? _)%Z.
  - exists (inr (float_of_Z z)). repeat split.
  - eexists. repeat split; try exact I.
Qed.

Lemma pure_to_float a : pure_arith (to_float a).
Proof. destruct a; [apply pure_Z_to_float | apply pure_ret]. Qed.

Lemma pure_py_add a b : pure_arith (py_add a b).
Proof.
  destruct a, b; cbn [py_add];
  repeat (apply pure_bind; intros; try apply pure_to_float); apply pure_ret.
Qed.

Lemma pure_py_mul a b : pure_arith (py_mul a b).
Proof.
  destruct a, b; cbn [py_mul];
  repeat (apply pure_bind; intros; try apply pure_to_float); apply pure_ret.
Qed.

Lemma pure_sum_from acc l : pure_arith (sum_from acc l).
Proof.
  revert acc. induction l as [|x l IH]; intro acc; cbn [sum_from].
  - apply pure_ret.
  - apply pure_bind; [apply pure_py_add | intro; apply IH].
Qed.

Lemma pure_py_sum l : pure_arith (py_sum l).
Proof. apply pure_sum_from. Qed.

Lemma pure_py_ceil x : pure_arith (py_ceil x).
Proof.
  intro ms. unfold py_ceil. destruct (Prim2SF x) as [s|s| |s m e].
  - exists (inr 0%Z). repeat split.
  - eexists. repeat split; try exact I.
  - eexists. repeat split; try exact I.
  - destruct (0 <=? e)%Z; eexists; repeat split.
Qed.

(** *** Conversions within range *)

Lemma Z_to_float_ok z ms : (Z.abs z < 2 ^ 1024 - 2 ^ 970)%Z ->
  Z_to_float z ms = (inr (float_of_Z z), ms).
Proof. intro H. unfold Z_to_float. apply Z.ltb_lt in H. rewrite H. reflexivity. Qed.

Lemma sum_from_ok (l : list pynum) : forall acc ms,
  Forall (fun x => int_size x <= 2 ^ 60)%Z l ->
  (int_size acc + 2 ^ 60 * Z.of_nat (List.length l) <= 2 ^ 1000)%Z ->
  exists v, sum_from acc l ms = (inr v, ms).
Proof.
  induction l as [|x l IH]; intros acc ms Hl Hb.
  - eexists. reflexivity.
  - inversion Hl as [|? ? Hx Hl']; subst. cbn [sum_from List.length] in *.
    assert (Hthr : (2 ^ 1000 < 2 ^ 1024 - 2 ^ 970)%Z) by (vm_compute; reflexivity).
    assert (H60 : (0 <= 2 ^ 60)%Z) by (vm_compute; discriminate).
    destruct acc as [a|a], x as [b|b]; cbn [int_size] in *;
      cbv [py_add bind ret to_float].
    + apply IH; [assumption|]. cbn [int_size]. lia.
    + rewrite Z_to_float_ok by lia. apply IH; [assumption|]. cbn [int_size]. lia.
    + rewrite Z_to_float_ok by lia. apply IH; [assumption|]. cbn [int_size]. lia.
    + apply IH; [assumption|]. cbn [int_size]. lia.
Qed.

Lemma py_mul_int_float z c ms : (Z.abs z < 2 ^ 1024 - 2 ^ 970)%Z ->
  py_mul (PInt z) (PFloat c) ms = (inr (PFloat (float_of_Z z * c)%float), ms).
Proof. intro H. cbv [py_mul bind to_float]. rewrite Z_to_float_ok by exact H. reflexivity. Qed.

Lemma py_mul_float_res a b ms v ms' :
  py_mul a b ms = (inr v, ms') ->
  (exists x, a = PFloat x) \/ (exists y, b = PFloat y) -> exists z, v = PFloat z.
Proof.
  intros H Hf. destruct a as [a|a], b as [b|b].
  - destruct Hf as [[x Hx]|[y Hy]]; discriminate.
  - cbv [py_mul bind ret to_float] in H. destruct (Z_to_float a ms) as [[e|x] m1].
    + discriminate. + injection H; intros; subst; eauto.
  - cbv [py_mul bind ret to_float] in H. destruct (Z_to_float b ms) as [[e|x] m1].
    + discriminate. + injection H; intros; subst; eauto.
  - cbv [py_mul bind ret to_float] in H. injection H; intros; subst; eauto.
Qed.

Lemma py_sum_ok (l : list pynum) ms :
  Forall (fun x => int_size x <= 2 ^ 60)%Z l -> (List.length l <= 21)%nat ->
  exists v, py_sum l ms = (inr v, ms).
Proof.
  intros Hl Hn. apply sum_from_ok; [assumption|]. cbn [int_size].
  assert (2 ^ 60 * 21 <= 2 ^ 1000)%Z by (vm_compute; discriminate). nia.
Qed.

Lemma first_permit_small (city : text) : (Z.abs (first_permit city PERMIT_COSTS) <= 1000)%Z.
Proof.
  unfold PERMIT_COSTS. cbn [first_permit].
  repeat match goal with |- context [if ?c then _ else _] => destruct c end; cbn; lia.
Qed.

Lemma cost_table_small c d :
  (Z.abs (Excavation (COST_TABLE c d)) <= 2 ^ 60 /\ Z.abs (PoolWork (COST_TABLE c d)) <= 2 ^ 60
   /\ Z.abs (Liner (COST_TABLE c d)) <= 2 ^ 60)%Z.
Proof. destruct c, d; vm_compute; repeat split; discriminate. Qed.

Ltac small_terms :=
  unfold total_terms; repeat constructor; cbn [int_size costs permit_cost drive_cost
    tracking_cost lights_total transformer];
  try match goal with |- context [COST_TABLE ?c ?d] =>
    destruct (cost_table_small c d) as (? & ? & ?) end;
  try assumption;
  try match goal with |- context [get_permit_cost ?a] =>
    unfold get_permit_cost; pose proof (first_permit_small (get_city a)); lia end;
  try match goal with |- context [if (0 <? ?n)%Z then _ else _] =>
    destruct (0 <? n)%Z; cbn [int_size]; lia end;
  try (vm_compute; discriminate).

(** *** The distance lookup *)

Lemma get_drive_returns_f (g : provider) (o d : text) (ms : list message) :
  exists v ms', get_drive_km_and_time g o d ms = (inr v, ms').
Proof.
  unfold get_drive_km_and_time, try_except.
  match goal with |- context [match ?m ms with _ => _ end] =>
    destruct (m ms) as [[e|v] ms'] end; cbv [bind emit ret]; eauto.
Qed.

Lemma int_truediv_ms a b ms : exists r, int_truediv a b ms = (r, ms).
Proof.
  unfold int_truediv, ret, raise. cbv zeta.
  destruct a; try destruct (SFdiv _ _ _ _); eexists; reflexivity.
Qed.

Lemma get_drive_shape (g : provider) (o d : text) ms km hr ms' :
  get_drive_km_and_time g o d ms = (inr (km, hr), ms') ->
  (km = PInt 0 /\ hr = PInt 0) \/ (exists a b, km = PFloat a /\ hr = PFloat b).
Proof.
  unfold get_drive_km_and_time, try_except.
  destruct (is_blank d); [intro E; injection E; intros; subst; left; auto|].
  cbv [bind raise ret emit nth_get opt_key].
  destruct (g o d) as [e|rows]; [intro E; injection E; intros; subst; left; auto|].
  destruct (nth_error rows 0) as [row|]; [|intro E; injection E; intros; subst; left; auto].
  destruct (nth_error row 0) as [el|]; [|intro E; injection E; intros; subst; left; auto].
  destruct (negb (text_eqb (el_status el) (tx "OK"))); [intro E; injection E; intros; subst; left; auto|].
  destruct (el_distance el) as [dd|]; [|intro E; injection E; intros; subst; left; auto].
  destruct (int_truediv dd 1000 ms) as [[e|a] m1];
    [intro E; injection E; intros; subst; left; auto|].
  destruct (el_duration el) as [ss|]; [|intro E; injection E; intros; subst; left; auto].
  destruct (int_truediv ss 3600 m1) as [[e|b] m2];
    [intro E; injection E; intros; subst; left; auto|].
  intro E; injection E; intros; subst; right; eauto.
Qed.

Lemma drive_messages_warnings_f (g : provider) (o d : text) :
  Forall (fun m => exists w, m = Warning w) (snd (run (get_drive_km_and_time g o d))).
Proof.
  unfold run, get_drive_km_and_time, try_except.
  destruct (is_blank d); [constructor|].
  cbv [bind raise ret emit nth_get opt_key].
  destruct (g o d) as [e|rows]; [repeat constructor; eauto|].
  destruct (nth_error rows 0) as [row|]; [|repeat constructor; eauto].
  destruct (nth_error row 0) as [el|]; [|repeat constructor; eauto].
  destruct (negb (text_eqb (el_status el) (tx "OK"))); [repeat constructor; eauto|].
  destruct (el_distance el) as [dd|]; [|repeat constructor; eauto].
  destruct (int_truediv dd 1000 []) as [r1 m1] eqn:T1.
  destruct (int_truediv_ms dd 1000 []) as [r1' T1']. rewrite T1 in T1'.
  injection T1' as <- ->.
  destruct r1 as [e|a]; [repeat constructor; eauto|].
  destruct (el_duration el) as [ss|]; [|repeat constructor; eauto].
  destruct (int_truediv ss 3600 []) as [r2 m2] eqn:T2.
  destruct (int_truediv_ms ss 3600 []) as [r2' T2']. rewrite T2 in T2'.
  injection T2' as <- ->.
  destruct r2; repeat constructor; eauto.
Qed.

(** *** The handler for a non-blank address *)

(** One step of the handler's arithmetic: the multiplication, [ceil] or
    [sum] either raises an arithmetic error or returns a value, leaving the
    messages unchanged. *)

Ltac arith_step :=
  let r := fresh "r" in let E1 := fresh "E" in let E2 := fresh "E" in
  let Er := fresh "Er" in
  match goal with
  | |- context [py_mul ?a ?b ?ms] => is_var ms;
      destruct (pure_py_mul a b ms) as (r & E1 & E2 & Er); rewrite E1
  | |- context [py_ceil ?x ?ms] => is_var ms;
      destruct (pure_py_ceil x ms) as (r & E1 & E2 & Er); rewrite E1
  | |- context [py_sum ?l ?ms] => is_var ms;
      destruct (pure_py_sum l ms) as (r & E1 & E2 & Er); rewrite E1
  end;
  destruct r as [?e|?v]; [cbn iota|].

Lemma submit_nonblank_run (g : provider) (f : form_input) :
  is_blank (address f) = false ->
  exists km hr ms0,
    get_drive_km_and_time g DEPOT (address f) [] = (inr (km, hr), ms0) /\
    match run (submit g f) with
    | (inl e, ms) =>
        ms = ms0 /\
        (arith_error e
         \/ (e = KeyError (selected_pump f) /\ assoc (selected_pump f) PUMP_OPTIONS = None)
         \/ (e = KeyError (selected_heater f) /\ assoc (selected_heater f) HEATER_OPTIONS = None))
    | (inr None, _) => False
    | (inr (Some e), ms) =>
        ms = ms0 ++ [SuccessMsg (tx "Estimate Ready")] /\
        exists p h i T,
          assoc (selected_pump f) PUMP_OPTIONS = Some p /\
          assoc (selected_heater f) HEATER_OPTIONS = Some h /\
          est_breakdown e = breakdown_of i T /\
          run (py_sum (total_terms i)) = (inr T, []) /\
          run (spec_terms f hr p h) = (inr (total_terms i), []) /\
          run (d1 <- py_mul hr (PInt 35) ;; d2 <- py_mul d1 (PInt 26) ;;
               py_mul d2 (PInt 4)) = (inr (drive_cost i), [])
    end.
Proof.
  intros Hb. unfold run, submit. rewrite Hb.
  destruct (get_drive_returns_f g DEPOT (address f) []) as [[km hr] [ms E]].
  exists km, hr, ms. split; [exact E|].
  cbv [bind]. rewrite E. cbn [fst snd].
  do 6 (arith_step; [split; [reflexivity | left; assumption] |]).
  unfold dict_get.
  destruct (assoc (selected_pump f) PUMP_OPTIONS) as [p|] eqn:Hp;
    [| cbv [raise]; cbv beta iota; split; [reflexivity | right; left; auto]].
  destruct (assoc (selected_heater f) HEATER_OPTIONS) as [h|] eqn:Hh;
    [| cbv [raise ret]; cbv beta iota; split; [reflexivity | right; right; auto]].
  cbv [ret].
  arith_step; [split; [reflexivity | left; assumption] |].
  cbv [emit ret]. cbn iota. split; [reflexivity|].
  set (i := {| linear_feet := _ |}).
  exists p, h, i, v5. split; [reflexivity|]. split; [reflexivity|].
  split; [reflexivity|]. split; [exact E13|]. split.
  - unfold spec_terms. cbv [bind ret]. cbv zeta.
    rewrite E7, E9, E11, E1, E3, E5. reflexivity.
  - cbv [bind ret]. rewrite E1, E3, E5. reflexivity.
Qed.

(** *** Entries of the breakdown *)

Lemma without_light_items_breakdown i T :
  without_light_items (breakdown_of i T) = [
  (tx "Excavation", PInt (Excavation (costs i)));
  (tx "Pool Work", PInt (PoolWork (costs i)));
  (tx "Liner Labor", PInt (Liner (costs i)));
  (tx "Liner Material + Steps", PFloat (base_liner i + extra i)%float);
  (tx "HPB", PFloat (hpb i));
  (tx "Steel", PFloat (steel i));
  (tx "Tracking", tracking_cost i);
  (tx "Concrete", PFloat (concrete i));
  (tx "Softbottom", PFloat (soft i));
  (tx "Drain Kit", PFloat (DrainKit FIXED_COSTS));
  (tx "Plumbing", PFloat (Plumbing FIXED_COSTS));
  (tx "Heater", PFloat (heater_cost i));
  (tx "Filter", PFloat (Filter FIXED_COSTS));
  (tx "Pump", PFloat (pump_cost i));
  (tx "Salt System (+salt)", PFloat (SaltSystem FIXED_COSTS));
  (tx "Winter Cover Area", PFloat (winter_area i));
  (tx "Winter Cover Labour", PFloat (WinterCoverLabour FIXED_COSTS));
  (tx "Permit", PInt (permit_cost i));
  (tx "Drive Time Labour", drive_cost i)].
Proof. reflexivity. Qed.

Lemma assoc_lights_breakdown i T :
  assoc (tx "Lights") (breakdown_of i T) = Some (lights_total i).
Proof. reflexivity. Qed.

Lemma assoc_transformer_breakdown i T :
  assoc (tx "Transformer") (breakdown_of i T) = Some (transformer i).
Proof. reflexivity. Qed.

Lemma breakdown_drive_entry i T :
  assoc (tx "Drive Time Labour") (breakdown_of i T) = Some (drive_cost i).
Proof. reflexivity. Qed.

Lemma sum_order_breakdown i T :
  map snd (sum_order (firstn 21 (breakdown_of i T))) = total_terms i.
Proof. reflexivity. Qed.

Lemma breakdown_split i T :
  breakdown_of i T = firstn 21 (breakdown_of i T) ++ [(tx "Total", T)].
Proof. reflexivity. Qed.

Lemma breakdown_keys_no_total i T :
  ~ In (tx "Total") (map fst (firstn 21 (breakdown_of i T))).
Proof. cbn. intuition discriminate. Qed.

(** *** The claims *)

(** C1 (amended): for a non-blank address and pump and heater keys of their
    tables, the handler either raises [OverflowError] or [ValueError] in
    the conversions of lines 192-222, or produces an estimate whose Total is
    [sum] of the spec's 21 terms in the listed order: a left-to-right
    binary64 addition of the terms, evaluated with the program's tables and
    number kinds (not their exact sum). *)

Theorem total_is_rounded_sum (g : provider) (f : form_input) (p h : float) :
  is_blank (address f) = false ->
  assoc (selected_pump f) PUMP_OPTIONS = Some p ->
  assoc (selected_heater f) HEATER_OPTIONS = Some h ->
  match run (submit g f) with
  | (inr (Some e), _) =>
      exists l T, run (spec_terms f (drive_hours g (address f)) p h) = (inr l, [])
        /\ run (py_sum l) = (inr T, []) /\ breakdown_total e = Some T
  | (inl e, _) => arith_error e
  | (inr None, _) => False
  end.
Proof.
  intros Hb Hp Hh. unfold drive_hours, run, submit. rewrite Hb.
  destruct (get_drive_returns_f g DEPOT (address f) []) as [[km hr] [ms E]].
  cbv [bind]. rewrite E. cbn [fst snd].
  do 5 (arith_step; [assumption|]).
  unfold dict_get. rewrite Hp, Hh. cbv [ret].
  do 2 (arith_step; [assumption|]).
  cbv [emit ret]. cbn iota.
  set (i := {| linear_feet := _ |}).
  exists (total_terms i), v5.
  unfold spec_terms. cbv [bind ret]. cbv zeta.
  rewrite E7, E9, E11, E1, E3, E5.
  split; [reflexivity|]. split; [exact E13|reflexivity].
Qed.

(** C1 (counterexample): a width of 1e308 is within the width widget's
    domain, but the perimeter overflows to infinity and [math.ceil] raises
    [OverflowError], so no Total is computed; and for the sample form the
    Total differs from the exact sum of the 21 items. *)

Lemma total_not_exact_sum :
  widget_domain (with_dims sample_form 1e308 32 65 65) = true /\
  run (submit (provider_ok 5000 720) (with_dims sample_form 1e308 32 65 65))
    = (inl (OverflowError (tx "cannot convert float infinity to integer")), []) /\
  match run (submit (provider_ok 5000 720) sample_form) with
  | (inr (Some e), _) =>
      match breakdown_total e with
      | Some t =>
          match pynum_value t, exact_sum (map snd (firstn 21 (est_breakdown e))) with
          | Some a, Some b => Qeq_bool a b = false
          | _, _ => False
          end
      | None => False
      end
  | _ => False
  end.
Proof. split; [|split]; vm_compute; reflexivity. Qed.

Lemma total_is_rounded_sum_witness :
  is_blank (address sample_form) = false /\
  assoc (selected_pump sample_form) PUMP_OPTIONS = Some 1217.14%float /\
  assoc (selected_heater sample_form) HEATER_OPTIONS = Some 3067.73%float /\
  match run (submit (provider_ok 5000 720) sample_form) with
  | (inr (Some e), _) =>
      exists l T, run (spec_terms sample_form (drive_hours (provider_ok 5000 720)
                         (address sample_form)) 1217.14%float 3067.73%float) = (inr l, [])
        /\ run (py_sum l) = (inr T, []) /\ breakdown_total e = Some T
  | (inl e, _) => arith_error e
  | (inr None, _) => False
  end.
Proof.
  refine (conj eq_refl (conj eq_refl (conj eq_refl _))).
  exact (total_is_rounded_sum (provider_ok 5000 720) sample_form _ _ eq_refl eq_refl eq_refl).
Defined.

(** C6 (amended): the drive lookup never raises; a blank destination gives
    [(0, 0)] silently; a raising provider or a non-"OK" element gives
    [(0, 0)] and exactly one warning; and when the lookup degrades to
    [(0, 0)], the handler either produces the estimate, with a zero drive
    labour entry and the messages of the lookup followed by
    "Estimate Ready", or raises [OverflowError] or [ValueError] in its own
    arithmetic. *)

Theorem drive_degradation (g : provider) :
  (forall o d ms, exists v ms', get_drive_km_and_time g o d ms = (inr v, ms')) /\
  (forall o d, is_blank d = true ->
     run (get_drive_km_and_time g o d) = (inr (PInt 0, PInt 0), [])) /\
  (forall o d m, is_blank d = false -> g o d = ApiRaises m ->
     run (get_drive_km_and_time g o d)
     = (inr (PInt 0, PInt 0), [Warning (tx "Error calling Google Maps API: " ++ m)])) /\
  (forall o d rows row el, is_blank d = false -> g o d = ApiReturns rows ->
     nth_error rows 0 = Some row -> nth_error row 0 = Some el ->
     text_eqb (el_status el) (tx "OK") = false ->
     run (get_drive_km_and_time g o d)
     = (inr (PInt 0, PInt 0), [Warning (tx "Google Distance Matrix API returned status: "
                              ++ el_status el)])) /\
  (forall f p h ms, is_blank (address f) = false ->
     assoc (selected_pump f) PUMP_OPTIONS = Some p ->
     assoc (selected_heater f) HEATER_OPTIONS = Some h ->
     run (get_drive_km_and_time g DEPOT (address f)) = (inr (PInt 0, PInt 0), ms) ->
     (exists e, run (submit g f) = (inr (Some e), ms ++ [SuccessMsg (tx "Estimate Ready")])
        /\ assoc (tx "Drive Time Labour") (est_breakdown e) = Some (PInt 0)) \/
     (exists x, run (submit g f) = (inl x, ms) /\ arith_error x)).
Proof.
  refine (conj (get_drive_returns_f g) _).
  split; [|split; [|split]].
  - intros o d Hb. unfold run, get_drive_km_and_time, try_except.
    rewrite Hb. reflexivity.
  - intros o d m Hb G. unfold run, get_drive_km_and_time, try_except.
    rewrite Hb. cbv [bind raise ret emit]. rewrite G. reflexivity.
  - intros o d rows row el Hb G R1 R2 Hs.
    unfold run, get_drive_km_and_time, try_except.
    rewrite Hb. cbv [bind raise ret emit nth_get]. rewrite G, R1, R2, Hs.
    reflexivity.
  - intros f p h ms Hb Hp Hh E. unfold run in E.
    destruct (submit_nonblank_run g f Hb) as (km & hr & ms0 & E0 & H).
    rewrite E in E0. injection E0 as <- <- <-.
    destruct (run (submit g f)) as [[x|[e|]] ms1].
    + destruct H as [-> [Hx|[[_ Hx]|[_ Hx]]]]; [right; eauto | congruence | congruence].
    + destruct H as [-> (p' & h' & i & T & _ & _ & Hbd & _ & _ & Hd)].
      left. exists e. split; [reflexivity|]. rewrite Hbd, breakdown_drive_entry.
      unfold run in Hd. cbv [bind py_mul ret] in Hd. injection Hd as Hd.
      rewrite <- Hd. reflexivity.
    + contradiction.
Qed.

(** C6 (counterexample): a blank destination gives [(0, 0)] with no
    warning at all. *)

Lemma drive_blank_destination_no_warning :
  run (get_drive_km_and_time provider_failing DEPOT (tx "   ")) = (inr (PInt 0, PInt 0), [])
  /\ warnings (snd (run (get_drive_km_and_time provider_failing DEPOT (tx "   ")))) = [].
Proof. split; vm_compute; reflexivity. Qed.

Lemma drive_degradation_witness :
  run (get_drive_km_and_time provider_failing DEPOT (address sample_form))
  = (inr (PInt 0, PInt 0), [Warning (tx "Error calling Google Maps API: " ++ tx "timeout")])
  /\ ((exists e, run (submit provider_failing sample_form)
       = (inr (Some e), [Warning (tx "Error calling Google Maps API: timeout");
                         SuccessMsg (tx "Estimate Ready")])
     /\ assoc (tx "Drive Time Labour") (est_breakdown e) = Some (PInt 0)) \/
     (exists x, run (submit provider_failing sample_form)
       = (inl x, [Warning (tx "Error calling Google Maps API: timeout")]) /\ arith_error x)).
Proof.
  destruct (drive_degradation provider_failing) as (_ & _ & H3 & _ & H5).
  split.
  - exact (H3 DEPOT (address sample_form) (tx "timeout") eq_refl eq_refl).
  - exact (H5 sample_form 1217.14%float 3067.73%float
             [Warning (tx "Error calling Google Maps API: timeout")]
             eq_refl eq_refl eq_refl eq_refl).
Defined.

(** C7 (amended): a blank address yields the validation error and no
    estimate, before the provider is consulted; with a non-blank address the
    handler shows no error message at all (it has no dimension check); the
    widgets keep width and length at 1 or more; and for a non-blank address
    and inputs in the widgets' domain the handler produces an estimate
    unless its arithmetic raises [OverflowError] or [ValueError]. *)

Theorem submit_validation (g : provider) (f : form_input) :
  (is_blank (address f) = true ->
     run (submit g f) = (inr None, [ErrorMsg VALIDATION_MSG])) /\
  (is_blank (address f) = false ->
     Forall (fun m => forall t, m <> ErrorMsg t) (snd (run (submit g f)))) /\
  (widget_domain f = true -> (1 <=? width f)%float = true /\ (1 <=? length f)%float = true) /\
  (is_blank (address f) = false -> widget_domain f = true ->
     (exists e ms, run (submit g f) = (inr (Some e), ms)) \/
     (exists x ms, run (submit g f) = (inl x, ms) /\ arith_error x)).
Proof.
  split; [|split; [|split]].
  - intro Hb. unfold run, submit. rewrite Hb. reflexivity.
  - intro Hb. destruct (submit_nonblank_run g f Hb) as (km & hr & ms0 & E & H).
    pose proof (drive_messages_warnings_f g DEPOT (address f)) as W.
    unfold run in W. rewrite E in W. cbn [snd] in W.
    assert (W' : Forall (fun m => forall t, m <> ErrorMsg t) ms0).
    { eapply Forall_impl; [|exact W]. intros m [w ->] t. discriminate. }
    destruct (run (submit g f)) as [[x|[e|]] ms]; cbn [snd].
    + destruct H as [-> _]. exact W'.
    + destruct H as [-> _]. apply Forall_app. split; [exact W'|].
      constructor; [discriminate|constructor].
    + contradiction.
  - unfold widget_domain. intro H. repeat rewrite andb_true_iff in H.
    destruct H as [[[[[[[[[[[[[_ H1] _] H2] _] _] _] _] _] _] _] _] _] _].
    split; assumption.
  - intros Hb Hd. destruct (submit_nonblank_run g f Hb) as (km & hr & ms0 & _ & H).
    unfold widget_domain, in_keys in Hd. repeat rewrite andb_true_iff in Hd.
    destruct Hd as [[_ Hp] Hh].
    destruct (run (submit g f)) as [[x|[e|]] ms].
    + destruct H as [_ [Hx|[[_ Hx]|[_ Hx]]]].
      * right. eauto.
      * rewrite Hx in Hp. discriminate.
      * rewrite Hx in Hh. discriminate.
    + left. eauto.
    + contradiction.
Qed.

(** C7 (counterexample): a width of 1e308 is within the widgets' domain and
    the address is not blank, yet no estimate is produced and no validation
    error is shown: the handler raises [OverflowError]. *)

Lemma submit_huge_width_no_estimate :
  widget_domain (with_dims sample_form 1e308 32 65 65) = true /\
  is_blank (address (with_dims sample_form 1e308 32 65 65)) = false /\
  run (submit (provider_ok 5000 720) (with_dims sample_form 1e308 32 65 65))
    = (inl (OverflowError (tx "cannot convert float infinity to integer")), []).
Proof. split; [|split]; vm_compute; reflexivity. Qed.

Lemma submit_validation_witness :
  run (submit (provider_ok 5000 720) blank_form) = (inr None, [ErrorMsg VALIDATION_MSG]) /\
  Forall (fun m => forall t, m <> ErrorMsg t)
    (snd (run (submit (provider_ok 5000 720) sample_form))) /\
  ((1 <=? width sample_form)%float = true /\ (1 <=? length sample_form)%float = true) /\
  ((exists e ms, run (submit (provider_ok 5000 720) sample_form) = (inr (Some e), ms)) \/
   (exists x ms, run (submit (provider_ok 5000 720) sample_form) = (inl x, ms)
      /\ arith_error x)).
Proof.
  destruct (submit_validation (provider_ok 5000 720) blank_form) as [H1 _].
  destruct (submit_validation (provider_ok 5000 720) sample_form) as (_ & H2 & H3 & H4).
  split; [exact (H1 eq_refl)|]. split; [exact (H2 eq_refl)|].
  split; [exact (H3 eq_refl)|]. exact (H4 eq_refl eq_refl).
Defined.

(** C9 (amended): for two light counts whose conversion to [float]
    succeeds, with every other input and the provider fixed, the two runs
    end alike (both raise the same exception, or both produce an estimate)
    with the same messages; the estimates' breakdowns differ only in the
    Lights, Transformer and Total entries; and Lights is the binary64
    product [n * 366.65] and Transformer is 140.33 when [n > 0] and the int 0
    otherwise. *)

Theorem lights_change_only_light_items (g : provider) (f : form_input) (n m : Z) :
  (Z.abs n < 2 ^ 1024 - 2 ^ 970)%Z -> (Z.abs m < 2 ^ 1024 - 2 ^ 970)%Z ->
  match run (submit g (with_lights f n)), run (submit g (with_lights f m)) with
  | (inr (Some e1), ms1), (inr (Some e2), ms2) =>
      ms1 = ms2 /\
      without_light_items (est_breakdown e1) = without_light_items (est_breakdown e2) /\
      assoc (tx "Lights") (est_breakdown e1) = Some (PFloat (float_of_Z n * 366.65)%float) /\
      assoc (tx "Transformer") (est_breakdown e1)
        = Some (if (0 <? n)%Z then PFloat 140.33%float else PInt 0) /\
      assoc (tx "Lights") (est_breakdown e2) = Some (PFloat (float_of_Z m * 366.65)%float) /\
      assoc (tx "Transformer") (est_breakdown e2)
        = Some (if (0 <? m)%Z then PFloat 140.33%float else PInt 0)
  | (inl x1, ms1), (inl x2, ms2) => x1 = x2 /\ ms1 = ms2
  | (inr None, ms1), (inr None, ms2) => ms1 = ms2
  | _, _ => False
  end.
Proof.
  intros Tn Tm.
  unfold run, submit. cbn [with_lights address width length dist_to_pool access_in
    steps tracking lights selected_pump selected_heater].
  destruct (is_blank (address f)); [reflexivity|].
  destruct (get_drive_returns_f g DEPOT (address f) []) as [[km hr] [ms E]].
  cbv [bind]. rewrite E. cbn [fst snd].
  pose proof (get_drive_shape _ _ _ _ _ _ _ E) as Hs.
  do 5 (arith_step; [cbv beta iota; auto|]).
  rewrite (py_mul_int_float n), (py_mul_int_float m) by assumption.
  cbv beta iota.
  unfold dict_get.
  destruct (assoc (selected_pump f) PUMP_OPTIONS) as [p|];
    [| cbv [raise]; cbv beta iota; auto].
  destruct (assoc (selected_heater f) HEATER_OPTIONS) as [h|];
    [| cbv [raise ret]; cbv beta iota; auto].
  cbv [ret]; cbv beta iota.
  assert (Hdc : (int_size v1 <= 2 ^ 60)%Z).
  { destruct Hs as [[-> ->]|(a & b & -> & ->)].
    - cbv in E1. injection E1 as <-. cbv in E3. injection E3 as <-.
      cbv in E5. injection E5 as <-. cbn. lia.
    - destruct (py_mul_float_res _ _ _ _ _ E1) as [z1 ->]; [eauto|].
      destruct (py_mul_float_res _ _ _ _ _ E3) as [z2 ->]; [eauto|].
      destruct (py_mul_float_res _ _ _ _ _ E5) as [z3 ->]; [eauto|].
      cbn. lia. }
  assert (Htr : (int_size v3 <= 2 ^ 60)%Z).
  { destruct (py_mul_float_res _ _ _ _ _ E9) as [z ->]; [eauto|]. cbn. lia. }
  match goal with |- context [py_sum ?l ms] =>
    destruct (py_sum_ok l ms) as [T1 ET1]; [small_terms| cbn; lia|]; rewrite ET1 end.
  match goal with |- context [py_sum ?l ms] =>
    destruct (py_sum_ok l ms) as [T2 ET2]; [small_terms| cbn; lia|]; rewrite ET2 end.
  cbv [emit]. cbv beta iota.
  split; [reflexivity|]. cbn [est_breakdown].
  rewrite !without_light_items_breakdown, !assoc_lights_breakdown,
    !assoc_transformer_breakdown.
  repeat split; reflexivity.
Qed.

(** C9 (counterexample): with the sample form, the Totals for 0, 1 and 2
    lights are 38298.53, 38805.51 and 39172.16 as binary64 values; their
    differences are neither exactly [366.65 + 140.33] and [366.65] as
    floats, nor as the exact values of the floats. *)

Lemma lights_increments_not_exact :
  match submit_total (provider_ok 5000 720) (with_lights sample_form 0),
        submit_total (provider_ok 5000 720) (with_lights sample_form 1),
        submit_total (provider_ok 5000 720) (with_lights sample_form 2) with
  | Some (PFloat t0), Some (PFloat t1), Some (PFloat t2) =>
      PrimFloat.eqb (t1 - t0)%float (366.65 + Transformer FIXED_COSTS)%float = false /\
      PrimFloat.eqb (t2 - t1)%float 366.65%float = false /\
      match float_value t0, float_value t1, float_value t2 with
      | Some q0, Some q1, Some q2 =>
          Qeq_bool (q1 - q0) (36665 / 100 + 14033 / 100) = false /\
          Qeq_bool (q2 - q1) (36665 / 100) = false
      | _, _, _ => False
      end
  | _, _, _ => False
  end.
Proof. vm_compute. repeat split; reflexivity. Qed.

Lemma lights_change_only_light_items_witness :
  (Z.abs 0 < 2 ^ 1024 - 2 ^ 970)%Z /\ (Z.abs 1 < 2 ^ 1024 - 2 ^ 970)%Z /\
  match run (submit (provider_ok 5000 720) (with_lights sample_form 0)),
        run (submit (provider_ok 5000 720) (with_lights sample_form 1)) with
  | (inr (Some e1), ms1), (inr (Some e2), ms2) =>
      ms1 = ms2 /\
      without_light_items (est_breakdown e1) = without_light_items (est_breakdown e2) /\
      assoc (tx "Lights") (est_breakdown e1) = Some (PFloat (float_of_Z 0 * 366.65)%float) /\
      assoc (tx "Transformer") (est_breakdown e1)
        = Some (if (0 <? 0)%Z then PFloat 140.33%float else PInt 0) /\
      assoc (tx "Lights") (est_breakdown e2) = Some (PFloat (float_of_Z 1 * 366.65)%float) /\
      assoc (tx "Transformer") (est_breakdown e2)
        = Some (if (0 <? 1)%Z then PFloat 140.33%float else PInt 0)
  | (inl x1, ms1), (inl x2, ms2) => x1 = x2 /\ ms1 = ms2
  | (inr None, ms1), (inr None, ms2) => ms1 = ms2
  | _, _ => False
  end.
Proof.
  assert (H0 : (Z.abs 0 < 2 ^ 1024 - 2 ^ 970)%Z) by (vm_compute; reflexivity).
  assert (H1 : (Z.abs 1 < 2 ^ 1024 - 2 ^ 970)%Z) by (vm_compute; reflexivity).
  exact (conj H0 (conj H1
    (lights_change_only_light_items (provider_ok 5000 720) sample_form 0 1 H0 H1))).
Defined.

(** C10 (amended): every produced breakdown is 21 entries followed by
    Total, no other entry is named Total, and Total is [sum] of the 21
    entries in the order of lines 211-222, which is the breakdown's order
    with Winter Cover Labour added before Winter Cover Area. *)

Theorem breakdown_total_consistent (g : provider) (f : form_input) :
  match run (submit g f) with
  | (inr (Some e), _) =>
      exists items T, est_breakdown e = items ++ [(tx "Total", T)] /\
        List.length items = 21%nat /\ ~ In (tx "Total") (map fst items) /\
        run (py_sum (map snd (sum_order items))) = (inr T, [])
  | _ => True
  end.
Proof.
  destruct (is_blank (address f)) eqn:Hb.
  - unfold run, submit. rewrite Hb. exact I.
  - destruct (submit_nonblank_run g f Hb) as (km & hr & ms0 & _ & H).
    destruct (run (submit g f)) as [[x|[e|]] ms]; try exact I.
    destruct H as [_ (p & h & i & T & _ & _ & Hbd & Hs & _ & _)].
    exists (firstn 21 (breakdown_of i T)), T. rewrite Hbd.
    split; [apply breakdown_split|]. split; [reflexivity|].
    split; [apply breakdown_keys_no_total|].
    rewrite sum_order_breakdown. exact Hs.
Qed.

(** C10 (counterexample): for an 11.7 x 39.6 pool, the sum of the 21
    entries in the breakdown's order differs from the Total, and so does
    their exact sum. *)

Lemma breakdown_display_sum_differs :
  match run (submit (provider_ok 5000 720) (with_dims sample_form 11.7 39.6 60 80)) with
  | (inr (Some e), _) =>
      match run (py_sum (map snd (firstn 21 (est_breakdown e)))), breakdown_total e with
      | (inr (PFloat a), _), Some (PFloat b) =>
          PrimFloat.eqb a b = false /\
          match exact_sum (map snd (firstn 21 (est_breakdown e))), float_value b with
          | Some qa, Some qb => Qeq_bool qa qb = false
          | _, _ => False
          end
      | _, _ => False
      end
  | _ => False
  end.
Proof. vm_compute. split; reflexivity. Qed.

(** X15: with a pump or heater name that is not a key of its table, the
    handler raises: [KeyError] with the unknown name, or an arithmetic
    error raised before the lookups of lines 208-209.  Only warnings of the
    distance lookup have been shown: no estimate and no "Estimate Ready"
    message, and a missing model is never priced as 0. *)

Theorem submit_unknown_model_raises (g : provider) (f : form_input) :
  is_blank (address f) = false ->
  (assoc (selected_pump f) PUMP_OPTIONS = None \/
   assoc (selected_heater f) HEATER_OPTIONS = None) ->
  exists x ms,
    run (submit g f) = (inl x, ms) /\
    ((x = KeyError (selected_pump f) /\ assoc (selected_pump f) PUMP_OPTIONS = None) \/
     (x = KeyError (selected_heater f) /\ assoc (selected_heater f) HEATER_OPTIONS = None) \/
     arith_error x) /\
    Forall (fun m => exists w, m = Warning w) ms.
Proof.
  intros Hb Hm. destruct (submit_nonblank_run g f Hb) as (km & hr & ms0 & E & H).
  pose proof (drive_messages_warnings_f g DEPOT (address f)) as W.
  unfold run in W. rewrite E in W. cbn [snd] in W.
  destruct (run (submit g f)) as [[x|[e|]] ms].
  - destruct H as [-> Hx]. exists x, ms0. split; [reflexivity|]. split; [|exact W].
    destruct Hx as [Hx|[Hx|Hx]]; auto.
  - destruct H as [_ (p & h & _ & _ & Hp & Hh & _)].
    destruct Hm as [Hm|Hm]; congruence.
  - contradiction.
Qed.

Lemma submit_unknown_model_raises_witness :
  is_blank (address unknown_pump_form) = false /\
  (assoc (selected_pump unknown_pump_form) PUMP_OPTIONS = None \/
   assoc (selected_heater unknown_pump_form) HEATER_OPTIONS = None) /\
  exists x ms,
    run (submit (provider_ok 5000 720) unknown_pump_form) = (inl x, ms) /\
    ((x = KeyError (selected_pump unknown_pump_form)
      /\ assoc (selected_pump unknown_pump_form) PUMP_OPTIONS = None) \/
     (x = KeyError (selected_heater unknown_pump_form)
      /\ assoc (selected_heater unknown_pump_form) HEATER_OPTIONS = None) \/
     arith_error x) /\
    Forall (fun m => exists w, m = Warning w) ms.
Proof.
  refine (conj eq_refl (conj (or_introl eq_refl) _)).
  exact (submit_unknown_model_raises (provider_ok 5000 720) unknown_pump_form
           eq_refl (or_introl eq_refl)).
Defined.

End Binary64_proofs.
